(** * Email-to-WhatsApp forwarder: a shallow embedding of [email_to_whatsapp.py]

    The Python module polls an IMAP mailbox for unread messages, lets an
    operator pick a subset, forwards the text of each picked message through
    the Twilio gateway and flags as seen the messages whose send went through.

    Python values are embedded as follows.
    - [str] is a list of Unicode code points ([N]); [bytes] is a list of
      [Byte.byte].
    - A call into a library that may raise returns a [result]; the program
      itself runs in a small monad threading the outside world and the pending
      operator input, and emitting the list of calls and console lines it
      makes.
    - The IMAP server, the Twilio client, the header parser and the codec
      table are parameters of the embedding (record [Env]). *)

From Stdlib.Strings Require Import String Ascii Byte.
From Stdlib Require Import List NArith Bool Arith Lia.
Import ListNotations.

Set Implicit Arguments.
Set Warnings "-register-all".

(** ** Python strings and slices *)

Module Py.

Definition str := list N.
Definition bytes := list byte.

Definition of_string (s : string) : str :=
  map N_of_ascii (list_ascii_of_string s).

Definition bytes_of_string (s : string) : bytes := list_byte_of_string s.

Fixpoint eqb (s t : str) : bool :=
  match s, t with
  | [], [] => true
  | c :: s', d :: t' => N.eqb c d && eqb s' t'
  | _, _ => false
  end.

Fixpoint bytes_eqb (s t : bytes) : bool :=
  match s, t with
  | [], [] => true
  | c :: s', d :: t' => Byte.eqb c d && bytes_eqb s' t'
  | _, _ => false
  end.

(** [s.startswith(p)] *)
Fixpoint startswith (p s : str) : bool :=
  match p, s with
  | [], _ => true
  | c :: p', d :: s' => N.eqb c d && startswith p' s'
  | _ :: _, [] => false
  end.

(** [p in s] on strings: [p] occurs in [s] as a substring. *)
Fixpoint contains (p s : str) : bool :=
  startswith p s || match s with [] => false | _ :: s' => contains p s' end.

(** [str.isspace] for one character: the code points Python classifies as
    whitespace. *)
Definition isspace (c : N) : bool :=
  ((9 <=? c) && (c <=? 13) || (28 <=? c) && (c <=? 32)
   || (c =? 133) || (c =? 160) || (c =? 5760)
   || (8192 <=? c) && (c <=? 8202) || (c =? 8232) || (c =? 8233)
   || (c =? 8239) || (c =? 8287) || (c =? 12288))%N.

Fixpoint lstrip (s : str) : str :=
  match s with
  | c :: s' => if isspace c then lstrip s' else s
  | [] => []
  end.

Definition rstrip (s : str) : str := rev (lstrip (rev s)).

(** [s.strip()] *)
Definition strip (s : str) : str := rstrip (lstrip s).

(** [s.replace(old, new)] for one-character [old] and [new]. *)
Definition replace (old new : N) (s : str) : str :=
  map (fun c => if (c =? old)%N then new else c) s.

(** [s.lower()], on the ASCII capitals.  The program only compares lowered
    operator tokens with ['q'], ['r'], ['y'], ['1'], ['2'], ['3'], and no
    character outside ASCII lowers to one of these. *)
Definition lower_char (c : N) : N :=
  if ((65 <=? c) && (c <=? 90))%N then (c + 32)%N else c.

Definition lower (s : str) : str := map lower_char s.

(** [l[:k]] and [l[-k:]] (for [k > 0]) on any sequence. *)
Definition take {A} (k : nat) (l : list A) : list A := firstn k l.
Definition last_n {A} (k : nat) (l : list A) : list A :=
  skipn (length l - k) l.

Definition CR : N := 13%N.
Definition LF : N := 10%N.
Definition SP : N := 32%N.

End Py.

Arguments Py.take : simpl never.
Arguments Py.last_n : simpl never.

(** ** Mail records *)

Record MailRecord : Type := mkMail {
  mail_id : Py.bytes;
  mail_subject : Py.str;
  mail_from : Py.str;
  mail_date : Py.str;
  mail_body : Py.str;
  mail_preview : Py.str
}.

(** Line 84: [(body.strip().replace("\r", " ").replace("\n", " "))[:400]]. *)
Definition preview_of (body : Py.str) : Py.str :=
  Py.take 400 (Py.replace Py.LF Py.SP (Py.replace Py.CR Py.SP (Py.strip body))).

(** The preview as the specification words it: every carriage return and every
    newline becomes one space, then the ends are trimmed, then the result is
    cut at 400 characters. *)
Definition collapse_breaks (s : Py.str) : Py.str :=
  map (fun c => if (c =? Py.CR)%N || (c =? Py.LF)%N then Py.SP else c) s.

Definition preview_spec (body : Py.str) : Py.str :=
  firstn 400 (Py.strip (collapse_breaks body)).

(** ** Selection (lines 158-166) *)

Inductive Choice : Type := LAST_ONE | LAST_THREE | ALL.

Definition tok (s : string) : Py.str := Py.of_string s.

(** The token test of lines 158-166; [None] is the [else] branch. *)
Definition parse_choice (choice : Py.str) : option Choice :=
  if Py.eqb choice (tok "1") then Some LAST_ONE
  else if Py.eqb choice (tok "2") then Some LAST_THREE
  else if Py.eqb choice (tok "3") then Some ALL
  else None.

Definition select {A} (emails : list A) (c : Choice) : list A :=
  let n := length emails in
  match c with
  | LAST_ONE => if 1 <=? n then Py.last_n 1 emails else []
  | LAST_THREE => if 1 <=? n then Py.last_n 3 emails else []
  | ALL => emails
  end.

(** ** Exceptions *)

(** The exception classes the program can meet.  All of them derive from
    [Exception]; [OtherError] stands for any class that is not named here
    ([imaplib.IMAP4.error], a socket or HTTP failure, ...). *)
Inductive exn : Type :=
| TwilioRestException (msg : Py.str) (code : option Py.str)
| LookupError (encoding : Py.str)
| UnicodeError (reason : Py.str)
| HeaderParseError (reason : Py.str)
| AttributeError
| EOFError
| OtherError (name : Py.str).

Inductive result (A : Type) : Type :=
| Ret (a : A)
| Raise (e : exn).

Arguments Ret {A} a.
Arguments Raise {A} e.

(** ** Parsed mail messages ([email.message.Message]) *)

(** The answers of the accessors the program calls on a message or part. *)
Record Headers : Type := mkHeaders {
  h_subject : Py.str;                       (* msg.get("Subject", '') *)
  h_from : Py.str;                          (* msg.get("From", '') *)
  h_date : Py.str;                          (* msg.get("Date", '') *)
  h_content_type : Py.str;                  (* get_content_type() *)
  h_content_disposition : option Py.str;    (* get("Content-Disposition") *)
  h_content_charset : option Py.str         (* get_content_charset() *)
}.

Inductive Message : Type :=
| Leaf (h : Headers) (payload : Py.bytes)
| Multipart (h : Headers) (parts : list Message).

Definition headers (m : Message) : Headers :=
  match m with Leaf h _ => h | Multipart h _ => h end.

Definition is_multipart (m : Message) : bool :=
  match m with Leaf _ _ => false | Multipart _ _ => true end.

Definition get_content_type (m : Message) : Py.str := h_content_type (headers m).
Definition get_content_charset (m : Message) : option Py.str :=
  h_content_charset (headers m).

(** [get_payload(decode=True)]: the transfer-decoded bytes of a leaf, [None]
    for a multipart container. *)
Definition get_payload_decoded (m : Message) : option Py.bytes :=
  match m with Leaf _ b => Some b | Multipart _ _ => None end.

(** [msg.walk()]: the message itself, then its parts, depth first. *)
Fixpoint walk (m : Message) : list Message :=
  m :: match m with
       | Leaf _ _ => []
       | Multipart _ ps => flat_map walk ps
       end.

(** One element of [decode_header]'s answer: undecoded bytes or text. *)
Inductive Chunk : Type :=
| BytesChunk (b : Py.bytes)
| StrChunk (s : Py.str).

(** [x or "utf-8"] on an optional charset name. *)
Definition or_utf8 (x : option Py.str) : Py.str :=
  match x with
  | Some (c :: cs) => c :: cs
  | _ => tok "utf-8"
  end.

(** ** The IMAP and gateway boundary *)

(** One element of the data list of [imap.fetch]: the pair of envelope line
    and message literal, or a lone bytes object.  The literal is represented
    by what [email.message_from_bytes] makes of it. *)
Inductive FetchItem : Type :=
| Tuple (envelope : Py.bytes) (literal : result Message)
| Lone (b : Py.bytes).

(** [decode_header] may raise on a header it cannot parse.  [codecs name] is
    the codec registered under [name], if any, run with [errors="ignore"]:
    the handler spares malformed input, but a codec may still raise, as the
    ones that refuse every handler but the strict one do. *)
Record Env (W : Type) : Type := mkEnv {
  decode_header : Py.str -> result (list (Chunk * option Py.str));
  codecs : Py.str -> option (Py.bytes -> result Py.str);
  imap_connect : W -> result unit * W;               (* IMAP4_SSL(host), login *)
  imap_select : W -> result unit * W;
  imap_search : W -> result (Py.str * Py.bytes) * W; (* status, messages[0] *)
  imap_fetch : Py.bytes -> W -> result (Py.str * list (option FetchItem)) * W;
  imap_store : Py.bytes -> W -> result unit * W;
  imap_logout : W -> result unit * W;
  messages_create : Py.str -> W -> result (option Py.str) * W  (* the sid *)
}.

(** ** Observable behaviour *)

Inductive Prompt : Type := AskOption | AskConfirm | AskContinue.

(** One constructor per [print] call of the program. *)
Inductive Console : Type :=
| NoEmailsSelected
| Sending (i total : nat) (subject60 : Py.str)
| ResultLine (r : option Py.str)
| MarkWarning (ex : exn)
| NotMarked
| Fetching
| Found (n : nat)
| Listing (idx : nat) (from subject60 : Py.str)
| PreviewLine (preview120 : Py.str)
| OptionsHeader | OptionLast1 | OptionLast3 | OptionAll
| NoUnreadNow
| OptionRefresh | OptionQuit
| Quitting
| NoUnreadToSend
| InvalidOption
| YouSelected (n : nat)
| SelectedLine (i : nat) (subject80 from : Py.str)
| Cancelled
| Exiting.

(** The calls across the boundary, with their outcome where the program
    looks at it, the operator lines read and the console lines written. *)
Inductive Event : Type :=
| Connect
| Select
| Search
| Fetch (eid : Py.bytes)
| Store (eid : Py.bytes) (outcome : result unit)
| Logout
| Create (text : Py.str) (outcome : result (option Py.str))
| Input (p : Prompt) (line : Py.str)
| Print (c : Console).

(** ** The program monad *)

Record Session (W : Type) : Type := mkSession {
  world : W;
  stdin : list Py.str
}.

Definition M (W A : Type) : Type :=
  Session W -> result A * Session W * list Event.

Definition ret {W A} (a : A) : M W A := fun s => (Ret a, s, []).

Definition raise {W A} (e : exn) : M W A := fun s => (Raise e, s, []).

Definition bind {W A B} (m : M W A) (k : A -> M W B) : M W B :=
  fun s =>
    match m s with
    | (Ret a, s1, t1) =>
        match k a s1 with (r, s2, t2) => (r, s2, t1 ++ t2) end
    | (Raise e, s1, t1) => (Raise e, s1, t1)
    end.

Notation "x <- m ;; k" := (bind m (fun x => k))
  (at level 61, m at next level, right associativity).
Notation "' pat <- m ;; k" :=
  (bind m (fun x => match x with pat => k end))
  (at level 61, pat pattern, m at next level, right associativity).
Notation "m ;;; k" := (bind m (fun _ => k))
  (at level 61, right associativity).

(** [try: m  except <classes accepted by h>: h e] *)
Definition try_except {W A} (m : M W A) (h : exn -> option (M W A)) : M W A :=
  fun s =>
    match m s with
    | (Ret a, s1, t1) => (Ret a, s1, t1)
    | (Raise e, s1, t1) =>
        match h e with
        | Some k => match k s1 with (r, s2, t2) => (r, s2, t1 ++ t2) end
        | None => (Raise e, s1, t1)
        end
    end.

(** [try: m  finally: c] *)
Definition try_finally {W A} (m : M W A) (c : M W unit) : M W A :=
  fun s =>
    match m s with
    | (r, s1, t1) =>
        match c s1 with
        | (Ret _, s2, t2) => (r, s2, t1 ++ t2)
        | (Raise e, s2, t2) => (Raise e, s2, t1 ++ t2)
        end
    end.

Definition lift {A} (r : result A) {W} : M W A :=
  match r with Ret a => ret a | Raise e => raise e end.

Definition print {W} (c : Console) : M W unit :=
  fun s => (Ret tt, s, [Print c]).

(** [input(prompt)]: the next operator line, [EOFError] at end of input. *)
Definition input {W} (p : Prompt) : M W Py.str :=
  fun s =>
    match stdin s with
    | line :: rest => (Ret line, mkSession (world s) rest, [Input p line])
    | [] => (Raise EOFError, s, [])
    end.

(** A boundary call: run it on the world and record it. *)
Definition call {W A} (op : W -> result A * W) (ev : result A -> Event) : M W A :=
  fun s =>
    match op (world s) with
    | (r, w) => (r, mkSession w (stdin s), [ev r])
    end.

(** [bytes.isspace] for one byte, and [bytes.split()] on runs of it. *)
Definition byte_isspace (b : byte) : bool :=
  let n := Byte.to_N b in ((n =? 32) || (9 <=? n) && (n <=? 13))%N.

Fixpoint split_from (s word : Py.bytes) : list Py.bytes :=
  match s with
  | [] => match word with [] => [] | _ => [rev word] end
  | b :: s' =>
      if byte_isspace b
      then match word with
           | [] => split_from s' []
           | _ => rev word :: split_from s' []
           end
      else split_from s' (b :: word)
  end.

Definition bytes_split (s : Py.bytes) : list Py.bytes := split_from s [].

(** ** The program *)

Section Program.

Context {W : Type} (env : Env W).

(** [b.decode(charset, errors="ignore")]: an unknown codec name raises
    [LookupError]; a codec that is found returns the text or raises. *)
Definition bytes_decode (charset : Py.str) (b : Py.bytes) : result Py.str :=
  match codecs env charset with
  | Some dec => dec b
  | None => Raise (LookupError charset)
  end.

(** Lines 38-42: the loop of [decode_mime] over the chunks. *)
Fixpoint decode_parts (parts : list (Chunk * option Py.str)) (decoded : Py.str)
  : result Py.str :=
  match parts with
  | [] => Ret decoded
  | (BytesChunk b, enc) :: rest =>
      match bytes_decode (or_utf8 enc) b with
      | Ret s => decode_parts rest (decoded ++ s)
      | Raise e => Raise e
      end
  | (StrChunk s, _) :: rest => decode_parts rest (decoded ++ s)
  end.

(** Lines 33-43. *)
Definition decode_mime (s : Py.str) : result Py.str :=
  match s with
  | [] => Ret []
  | _ =>
      match decode_header env s with
      | Ret parts => decode_parts parts []
      | Raise e => Raise e
      end
  end.

(** [part.get_payload(decode=True).decode(charset, errors="ignore")] with
    [charset = part.get_content_charset() or "utf-8"]. *)
Definition decode_payload (part : Message) : result Py.str :=
  let charset := or_utf8 (get_content_charset part) in
  match get_payload_decoded part with
  | Some b => bytes_decode charset b
  | None => Raise AttributeError
  end.

(** [str(part.get("Content-Disposition") or '')] *)
Definition disposition (part : Message) : Py.str :=
  match h_content_disposition (headers part) with
  | Some d => d
  | None => []
  end.

(** Lines 48-53: the first loop of [get_body]; [None] when it falls through. *)
Fixpoint scan_plain (parts : list Message) : option (result Py.str) :=
  match parts with
  | [] => None
  | part :: rest =>
      if Py.eqb (get_content_type part) (tok "text/plain")
         && negb (Py.contains (tok "attachment") (disposition part))
      then Some (decode_payload part)
      else scan_plain rest
  end.

(** Lines 55-58: the second loop. *)
Fixpoint scan_html (parts : list Message) : option (result Py.str) :=
  match parts with
  | [] => None
  | part :: rest =>
      if Py.eqb (get_content_type part) (tok "text/html")
      then Some (decode_payload part)
      else scan_html rest
  end.

(** Lines 45-62. *)
Definition get_body (msg : Message) : result Py.str :=
  if is_multipart msg then
    match scan_plain (walk msg) with
    | Some r => r
    | None =>
        match scan_html (walk msg) with
        | Some r => r
        | None => Ret []
        end
    end
  else decode_payload msg.

(** Lines 79-92: the record built from a parsed message.  [get_body] always
    hands back a string here, so the [or] with the empty string changes nothing. *)
Definition build_record (eid : Py.bytes) (msg : Message) : result MailRecord :=
  match decode_mime (h_subject (headers msg)) with
  | Raise e => Raise e
  | Ret subject =>
  match decode_mime (h_from (headers msg)) with
  | Raise e => Raise e
  | Ret from_ =>
  match decode_mime (h_date (headers msg)) with
  | Raise e => Raise e
  | Ret date =>
  match get_body msg with
  | Raise e => Raise e
  | Ret body =>
      Ret (mkMail eid subject from_ date body (preview_of body))
  end end end end.

(** Lines 72-92: the body of the loop over the ids; [None] is [continue].
    Taking [data[0][1]] and parsing it both sit inside the [try]: a lone bytes
    object, whose item is a number or missing, ends in the [except] branch
    like a literal the parser rejects. *)
Definition fetch_one (eid : Py.bytes) : M W (option MailRecord) :=
  '(res, data) <- call (imap_fetch env eid) (fun _ => Fetch eid) ;;
  if negb (Py.eqb res (tok "OK")) then ret None
  else match data with
       | [] => ret None
       | None :: _ => ret None
       | Some (Lone _) :: _ => ret None             (* no literal to parse *)
       | Some (Tuple _ (Raise _)) :: _ => ret None  (* except Exception *)
       | Some (Tuple _ (Ret msg)) :: _ =>
           r <- lift (build_record eid msg) ;; ret (Some r)
       end.

Fixpoint fetch_each (email_ids : list Py.bytes) (results : list MailRecord)
  : M W (list MailRecord) :=
  match email_ids with
  | [] => ret results
  | eid :: rest =>
      r <- fetch_one eid ;;
      match r with
      | Some rec => fetch_each rest (results ++ [rec])
      | None => fetch_each rest results
      end
  end.

(** Lines 64-93. *)
Definition fetch_unseen : M W (list MailRecord) :=
  call (imap_select env) (fun _ => Select) ;;;
  '(status, messages0) <- call (imap_search env) (fun _ => Search) ;;
  if negb (Py.eqb status (tok "OK")) then ret []
  else fetch_each (bytes_split messages0) [].

(** Lines 95-96. *)
Definition mark_seen (eid : Py.bytes) : M W unit :=
  call (imap_store env eid) (Store eid).

(** The text built at line 104. *)
Definition error_text (msg : Py.str) (code : option Py.str) : Py.str :=
  tok "ERROR: " ++ msg ++ tok " (code "
    ++ match code with Some c => c | None => tok "N/A" end ++ tok ")".

(** Lines 98-104. *)
Definition send_whatsapp (text : Py.str) : M W (option Py.str) :=
  try_except
    (call (messages_create env text) (Create text))
    (fun e =>
       match e with
       | TwilioRestException msg code => Some (ret (Some (error_text msg code)))
       | _ => None
       end).

(** Lines 112-114: the text sent for one record. *)
Definition payload (e : MailRecord) : Py.str :=
  ([128231%N] ++ tok " From: " ++ mail_from e ++ [Py.LF]
     ++ [128172%N] ++ tok " Subject: " ++ mail_subject e ++ [Py.LF]
     ++ tok "Date: " ++ mail_date e ++ [Py.LF; Py.LF])
    ++ Py.take 1000 (mail_body e).

(** Line 119: [isinstance(result, str) and not result.startswith("ERROR")]. *)
Definition delivered (r : option Py.str) : bool :=
  match r with
  | Some s => negb (Py.startswith (tok "ERROR") s)
  | None => false
  end.

(** Lines 112-125: the body of the loop of [send_batch]. *)
Definition send_one (i total : nat) (e : MailRecord) : M W unit :=
  let text := payload e in
  print (Sending i total (Py.take 60 (mail_subject e))) ;;;
  r <- send_whatsapp text ;;
  print (ResultLine r) ;;;
  if delivered r
  then try_except (mark_seen (mail_id e))
                  (fun ex => Some (print (MarkWarning ex)))
  else print NotMarked.

Fixpoint send_each (i total : nat) (emails : list MailRecord) : M W unit :=
  match emails with
  | [] => ret tt
  | e :: rest => send_one i total e ;;; send_each (S i) total rest
  end.

(** Lines 106-125. *)
Definition send_batch (emails : list MailRecord) : M W unit :=
  match emails with
  | [] => print NoEmailsSelected
  | _ => send_each 1 (length emails) emails
  end.

(** [input(prompt).strip().lower()] *)
Definition normalize (line : Py.str) : Py.str := Py.lower (Py.strip line).

Definition read_token (p : Prompt) : M W Py.str :=
  line <- input p ;; ret (normalize line).

(** Lines 137-139. *)
Fixpoint list_each (idx : nat) (emails : list MailRecord) : M W unit :=
  match emails with
  | [] => ret tt
  | e :: rest =>
      print (Listing idx (mail_from e) (Py.take 60 (mail_subject e))) ;;;
      print (PreviewLine (Py.take 120 (mail_preview e))) ;;;
      list_each (S idx) rest
  end.

(** Lines 133-147: what is shown after a poll. *)
Definition presenting (emails : list MailRecord) : M W unit :=
  let n := length emails in
  print (Found n) ;;;
  (if 0 <? n
   then list_each (Nat.max 1 (n - 9)) (Py.last_n 10 emails) ;;;
        print OptionsHeader ;;; print OptionLast1 ;;;
        print OptionLast3 ;;; print OptionAll
   else print NoUnreadNow) ;;;
  print OptionRefresh ;;;
  print OptionQuit.

(** Lines 169-170. *)
Fixpoint show_selected (i : nat) (selected : list MailRecord) : M W unit :=
  match selected with
  | [] => ret tt
  | e :: rest =>
      print (SelectedLine i (Py.take 80 (mail_subject e)) (mail_from e)) ;;;
      show_selected (S i) rest
  end.

(** Lines 168-175: the selection is shown and must be confirmed. *)
Definition confirming (selected : list MailRecord) : M W unit :=
  print (YouSelected (length selected)) ;;;
  show_selected 1 selected ;;;
  confirm <- read_token AskConfirm ;;
  if Py.eqb confirm (tok "y")
  then send_batch selected
  else print Cancelled.

(** What the loop does next: [continue] or [break]. *)
Inductive Ctl : Type := Continue | Break.

(** Lines 177-180. *)
Definition continue_prompt : M W Ctl :=
  cont <- read_token AskContinue ;;
  if negb (Py.eqb cont (tok "y"))
  then print Exiting ;;; ret Break
  else ret Continue.

(** Lines 148-180: from the option prompt to the end of the loop body. *)
Definition awaiting_choice (emails : list MailRecord) : M W Ctl :=
  choice <- read_token AskOption ;;
  if Py.eqb choice (tok "q") then print Quitting ;;; ret Break
  else if Py.eqb choice (tok "r") then ret Continue
  else if length emails =? 0 then print NoUnreadToSend ;;; ret Continue
  else match parse_choice choice with
       | None => print InvalidOption ;;; ret Continue
       | Some c => confirming (select emails c) ;;; continue_prompt
       end.

(** Lines 131-180: one turn of the [while True] loop. *)
Definition iteration : M W Ctl :=
  print Fetching ;;;
  emails <- fetch_unseen ;;
  presenting emails ;;;
  awaiting_choice emails.

(** The [while True] loop, cut after [fuel] turns ([None]). *)
Fixpoint loop (fuel : nat) : M W (option unit) :=
  match fuel with
  | 0 => ret None
  | S fuel' =>
      c <- iteration ;;
      match c with
      | Break => ret (Some tt)
      | Continue => loop fuel'
      end
  end.

(** Lines 28-31. *)
Definition connect_imap : M W unit :=
  call (imap_connect env) (fun _ => Connect).

(** Lines 182-185. *)
Definition logout_quietly : M W unit :=
  try_except (call (imap_logout env) (fun _ => Logout))
             (fun _ => Some (ret tt)).

(** Lines 127-185.  Every turn reads at least one operator line, so one turn
    more than there are pending lines is always enough. *)
Definition interactive_loop : M W (option unit) :=
  fun s =>
    (connect_imap ;;; try_finally (loop (S (length (stdin s)))) logout_quietly) s.

End Program.

(** ** A sample world *)

(** UTF-8 decoding with [errors="ignore"]: a well-formed sequence yields its
    code point, any other byte is dropped. *)
Definition cont_byte (b : N) : bool := ((128 <=? b) && (b <=? 191))%N.

Definition lead3_ok (b0 b1 : N) : bool :=
  ((b0 =? 224) && (160 <=? b1) && (b1 <=? 191)
   || (225 <=? b0) && (b0 <=? 236) && cont_byte b1
   || (b0 =? 237) && (128 <=? b1) && (b1 <=? 159)
   || (238 <=? b0) && (b0 <=? 239) && cont_byte b1)%N.

Definition lead4_ok (b0 b1 : N) : bool :=
  ((b0 =? 240) && (144 <=? b1) && (b1 <=? 191)
   || (241 <=? b0) && (b0 <=? 243) && cont_byte b1
   || (b0 =? 244) && (128 <=? b1) && (b1 <=? 143))%N.

Fixpoint utf8_ignore (bs : list N) : Py.str :=
  match bs with
  | [] => []
  | b0 :: r0 =>
      if (b0 <? 128)%N then b0 :: utf8_ignore r0
      else
        match r0 with
        | [] => []
        | b1 :: r1 =>
            if ((194 <=? b0) && (b0 <=? 223))%N && cont_byte b1
            then ((b0 - 192) * 64 + (b1 - 128))%N :: utf8_ignore r1
            else
              match r1 with
              | [] => utf8_ignore r0
              | b2 :: r2 =>
                  if lead3_ok b0 b1 && cont_byte b2
                  then ((b0 - 224) * 4096 + (b1 - 128) * 64 + (b2 - 128))%N
                         :: utf8_ignore r2
                  else
                    match r2 with
                    | [] => utf8_ignore r0
                    | b3 :: r3 =>
                        if lead4_ok b0 b1 && cont_byte b2 && cont_byte b3
                        then ((b0 - 240) * 262144 + (b1 - 128) * 4096
                              + (b2 - 128) * 64 + (b3 - 128))%N
                               :: utf8_ignore r3
                        else utf8_ignore r0
                    end
              end
        end
  end.

Definition ascii_ignore (bs : list N) : Py.str :=
  filter (fun b => (b <? 128)%N) bs.

(** A codec table with the UTF-8, ASCII and Latin-1 codecs under their usual
    lower-case names, and with two codecs that exist but raise when run with
    [errors="ignore"]; every other name is unknown. *)
Definition sample_codecs (name : Py.str) : option (Py.bytes -> result Py.str) :=
  if Py.eqb name (tok "utf-8") || Py.eqb name (tok "utf8")
  then Some (fun b => Ret (utf8_ignore (map Byte.to_N b)))
  else if Py.eqb name (tok "ascii") || Py.eqb name (tok "us-ascii")
  then Some (fun b => Ret (ascii_ignore (map Byte.to_N b)))
  else if Py.eqb name (tok "latin-1") || Py.eqb name (tok "iso-8859-1")
  then Some (fun b => Ret (map Byte.to_N b))
  else if Py.eqb name (tok "idna")
  then Some (fun _ => Raise (UnicodeError (tok "Unsupported error handling ignore")))
  else if Py.eqb name (tok "undefined")
  then Some (fun _ => Raise (UnicodeError (tok "undefined encoding")))
  else None.

(** [decode_header] on the sample headers: a header without encoded word
    comes back as it is; of the encoded words, one with a broken base64
    payload raises, the two others come back as bytes with their charset. *)
Definition sample_decode_header (s : Py.str)
  : result (list (Chunk * option Py.str)) :=
  if Py.eqb s (tok "=?utf-8?b?a?=")
  then Raise (HeaderParseError (tok "Base64 decoding error"))
  else if Py.eqb s (tok "=?x-unknown?q?hi?=")
  then Ret [(BytesChunk (Py.bytes_of_string "hi"), Some (tok "x-unknown"))]
  else if Py.eqb s (tok "=?utf-8?q?caf=C3=A9?=")
  then Ret [(BytesChunk (Py.bytes_of_string "caf" ++ [xc3; xa9]),
             Some (tok "utf-8"))]
  else Ret [(StrChunk s, None)].

(** One message of the sample mailbox, with the answer the server gives when
    it is fetched. *)
Record Entry : Type := mkEntry {
  entry_id : Py.bytes;
  entry_answer : Py.str * list (option FetchItem);
  entry_seen : bool
}.

Record World : Type := mkWorld {
  inbox : list Entry;
  arrivals : list (list Entry);                (* mail arriving before each poll *)
  search_status : Py.str;                      (* the status SEARCH reports *)
  read_only : bool;                            (* STORE is refused *)
  gateway : list (result (option Py.str));     (* outcomes of the next sends *)
  sent : list Py.str                           (* texts the gateway accepted *)
}.

Definition deliver (w : World) : World :=
  match arrivals w with
  | [] => w
  | batch :: later =>
      mkWorld (inbox w ++ batch) later (search_status w) (read_only w)
              (gateway w) (sent w)
  end.

Fixpoint join_ids (ids : list Py.bytes) : Py.bytes :=
  match ids with
  | [] => []
  | [i] => i
  | i :: rest => i ++ Py.bytes_of_string " " ++ join_ids rest
  end.

Definition unseen_ids (w : World) : list Py.bytes :=
  map entry_id (filter (fun e => negb (entry_seen e)) (inbox w)).

Definition sample_fetch (eid : Py.bytes) (w : World)
  : result (Py.str * list (option FetchItem)) * World :=
  match find (fun e => Py.bytes_eqb (entry_id e) eid) (inbox w) with
  | Some e => (Ret (entry_answer e), w)
  | None => (Ret (tok "OK", [None]), w)
  end.

Definition flag_seen (eid : Py.bytes) (e : Entry) : Entry :=
  if Py.bytes_eqb (entry_id e) eid
  then mkEntry (entry_id e) (entry_answer e) true
  else e.

Definition sample_store (eid : Py.bytes) (w : World) : result unit * World :=
  if read_only w
  then (Raise (OtherError (tok "imaplib.IMAP4.readonly")), w)
  else (Ret tt,
        mkWorld (map (flag_seen eid) (inbox w)) (arrivals w) (search_status w)
                (read_only w) (gateway w) (sent w)).

Definition sample_create (text : Py.str) (w : World)
  : result (option Py.str) * World :=
  let o := match gateway w with
           | o :: _ => o
           | [] => Ret (Some (tok "SM00000000000000000000000000000000"))
           end in
  (o,
   mkWorld (inbox w) (arrivals w) (search_status w) (read_only w)
           (tl (gateway w))
           (match o with Ret _ => sent w ++ [text] | Raise _ => sent w end)).

Definition sample_env : Env World :=
  mkEnv sample_decode_header
        sample_codecs
        (fun w => (Ret tt, w))
        (fun w => (Ret tt, deliver w))
        (fun w => (Ret (search_status w, join_ids (unseen_ids w)), w))
        sample_fetch
        sample_store
        (fun w => (Ret tt, w))
        sample_create.

Definition plain_headers (subject from date : string) (charset : option Py.str)
  : Headers :=
  mkHeaders (tok subject) (tok from) (tok date) (tok "text/plain") None charset.

Definition plain_mail (subject from date body : string) : Message :=
  Leaf (plain_headers subject from date None) (Py.bytes_of_string body).

Definition fetched (eid : string) (msg : Message) : Entry :=
  mkEntry (Py.bytes_of_string eid)
          (tok "OK",
           [Some (Tuple (Py.bytes_of_string (eid ++ " (RFC822 {0}")) (Ret msg));
            Some (Lone (Py.bytes_of_string ")"))])
          false.

Definition mail1 : Message :=
  plain_mail "Invoice" "alice@example.org" "Mon, 1 Jan 2024" "Please pay.".
Definition mail2 : Message :=
  plain_mail "Lunch" "bob@example.org" "Tue, 2 Jan 2024" "Noon today?".

Definition quiet_world (entries : list Entry) : World :=
  mkWorld entries [] (tok "OK") false [] [].

(** The records a poll builds from [mail1] and [mail2]. *)
Definition record1 : MailRecord :=
  mkMail (Py.bytes_of_string "1") (tok "Invoice") (tok "alice@example.org")
         (tok "Mon, 1 Jan 2024") (tok "Please pay.") (tok "Please pay.").
Definition record2 : MailRecord :=
  mkMail (Py.bytes_of_string "2") (tok "Lunch") (tok "bob@example.org")
         (tok "Tue, 2 Jan 2024") (tok "Noon today?") (tok "Noon today?").

(** A mailbox that receives a second message between two polls. *)
Definition growing_world : World :=
  mkWorld [fetched "1" mail1] [[]; [fetched "2" mail2]] (tok "OK") false [] [].

(** A message that names a charset no codec answers to. *)
Definition odd_charset_mail : Message :=
  Leaf (plain_headers "Hello" "eve@example.org" "Wed, 3 Jan 2024"
          (Some (tok "x-unknown")))
       (Py.bytes_of_string "How are you?").

Definition odd_mailbox : World :=
  quiet_world [fetched "1" mail1; fetched "2" odd_charset_mail].

(** Two unread messages; the gateway rejects the first send and accepts the
    second. *)
Definition rejecting_world : World :=
  mkWorld [fetched "1" mail1; fetched "2" mail2] [] (tok "OK") false
          [Raise (TwilioRestException (tok "Invalid number") (Some (tok "21211")));
           Ret (Some (tok "SM2"))]
          [].

(** The gateway accepts and answers with an identifier that starts with
    ["ERROR"]. *)
Definition odd_sid_world : World :=
  mkWorld [fetched "1" mail1] [] (tok "OK") false [Ret (Some (tok "ERROR9"))] [].

(** The server refuses the search; and a mailbox that is simply empty. *)
Definition refusing_world : World :=
  mkWorld [fetched "1" mail1] [] (tok "NO") false [] [].

(** The second message cannot be fetched. *)
Definition half_fetchable_world : World :=
  quiet_world [fetched "1" mail1;
               mkEntry (Py.bytes_of_string "2") (tok "NO", []) false].

(** ** Notions used by the statements *)

(** A computation that does not push operator lines back. *)
Definition keeps_input {W A} (m : M W A) : Prop :=
  forall s, length (stdin (snd (fst (m s)))) <= length (stdin s).

(** Body extraction as a search: the first [text/plain] part whose
    disposition does not hold the word [attachment], else the first
    [text/html] part, else nothing; a message that is not multipart is
    decoded directly. *)
Definition plain_candidate (part : Message) : bool :=
  Py.eqb (get_content_type part) (tok "text/plain")
  && negb (Py.contains (tok "attachment") (disposition part)).

Definition html_candidate (part : Message) : bool :=
  Py.eqb (get_content_type part) (tok "text/html").

Definition get_body_spec {W} (env : Env W) (msg : Message) : result Py.str :=
  if is_multipart msg then
    match find plain_candidate (walk msg) with
    | Some part => decode_payload env part
    | None =>
        match find html_candidate (walk msg) with
        | Some part => decode_payload env part
        | None => Ret []
        end
    end
  else decode_payload env msg.

(** What [send_whatsapp] hands back for an outcome of [messages.create]. *)
Definition handed_back (o : result (option Py.str)) : result (option Py.str) :=
  match o with
  | Ret sid => Ret sid
  | Raise (TwilioRestException msg code) => Ret (Some (error_text msg code))
  | Raise e => Raise e
  end.

(** The gateway and mailbox calls of a run, with the result lines shown. *)
Definition is_dispatch (ev : Event) : bool :=
  match ev with
  | Create _ _ | Store _ _ | Print (ResultLine _) => true
  | _ => false
  end.

Definition dispatch_calls (t : list Event) : list Event := filter is_dispatch t.

(** The gateway and mailbox calls alone. *)
Definition is_gateway_call (ev : Event) : bool :=
  match ev with
  | Create _ _ | Store _ _ => true
  | _ => false
  end.

Definition gateway_calls (t : list Event) : list Event :=
  filter is_gateway_call t.

(** A pass as the specification words it: every record of the selection is
    sent, in order; a send that succeeded is followed by [mark_seen] for
    that record, a send that failed is not, and either way the pass goes on
    to the next record. *)
Inductive claimed_pass : list MailRecord -> list Event -> Prop :=
| claimed_done : claimed_pass [] []
| claimed_delivered e es sid so t :
    claimed_pass es t ->
    claimed_pass (e :: es)
      (Create (payload e) (Ret sid) :: Store (mail_id e) so :: t)
| claimed_failed e es ex t :
    claimed_pass es t ->
    claimed_pass (e :: es) (Create (payload e) (Raise ex) :: t).

Definition pass_as_claimed : Prop :=
  forall W (env : Env W) emails s,
    claimed_pass emails (gateway_calls (snd (send_batch env emails s))).

(** A pass as the program runs it, with its outcome.  Record by record, in
    order, the text is sent.  An identifier that does not start with
    ["ERROR"] is shown and the record flagged; a missing identifier or one
    that starts with ["ERROR"] is shown and the record left alone; a
    [TwilioRestException] is shown as its error text and the record left
    alone; in these three cases the pass goes on.  Any other exception ends
    the pass at that record. *)
Inductive pass_run : list MailRecord -> result unit -> list Event -> Prop :=
| run_done : pass_run [] (Ret tt) []
| run_flagged e es sid so res t :
    Py.startswith (tok "ERROR") sid = false ->
    pass_run es res t ->
    pass_run (e :: es) res
      (Create (payload e) (Ret (Some sid)) :: Print (ResultLine (Some sid))
         :: Store (mail_id e) so :: t)
| run_unflagged e es sid res t :
    (forall x, sid = Some x -> Py.startswith (tok "ERROR") x = true) ->
    pass_run es res t ->
    pass_run (e :: es) res
      (Create (payload e) (Ret sid) :: Print (ResultLine sid) :: t)
| run_rejected e es msg code res t :
    pass_run es res t ->
    pass_run (e :: es) res
      (Create (payload e) (Raise (TwilioRestException msg code))
         :: Print (ResultLine (Some (error_text msg code))) :: t)
| run_aborted e es ex :
    (forall msg code, ex <> TwilioRestException msg code) ->
    pass_run (e :: es) (Raise ex) [Create (payload e) (Raise ex)].

(** Two unread messages; the connection to the gateway drops on the first
    send. *)
Definition dropping_world : World :=
  mkWorld [fetched "1" mail1; fetched "2" mail2] [] (tok "OK") false
          [Raise (OtherError (tok "requests.exceptions.ConnectionError"));
           Ret (Some (tok "SM2"))]
          [].

(** Console traffic: a line written or an operator line read. *)
Definition is_console (ev : Event) : bool :=
  match ev with
  | Print _ | Input _ _ => true
  | _ => false
  end.


(** "The gateway send never raises": read literally, for every transport. *)
Definition send_never_raises : Prop :=
  forall W (env : Env W) text s,
    exists r, fst (fst (send_whatsapp env text s)) = Ret r.


(** ** Notions for the properties beyond the claims *)

(** Every event a computation emits, from any session, satisfies [P]. *)
Definition emits {W A} (P : Event -> Prop) (m : M W A) : Prop :=
  forall s, Forall P (snd (m s)).

(** The mailbox reads of a poll. *)
Definition is_poll (ev : Event) : Prop :=
  match ev with
  | Select | Search | Fetch _ => True
  | _ => False
  end.

(** The ids fetched, the texts handed to the gateway and the ids handed to
    [imap.store] in a run, in the order of the calls. *)
Definition fetched_ids (t : list Event) : list Py.bytes :=
  flat_map (fun ev => match ev with Fetch eid => [eid] | _ => [] end) t.

Definition sent_texts (t : list Event) : list Py.str :=
  flat_map (fun ev => match ev with Create text _ => [text] | _ => [] end) t.

Definition stored_ids (t : list Event) : list Py.bytes :=
  flat_map (fun ev => match ev with Store eid _ => [eid] | _ => [] end) t.

(** [l1] is [l2] with some elements left out. *)
Inductive subseq {A : Type} : list A -> list A -> Prop :=
| subseq_nil : subseq [] []
| subseq_keep x l1 l2 : subseq l1 l2 -> subseq (x :: l1) (x :: l2)
| subseq_drop x l1 l2 : subseq l1 l2 -> subseq l1 (x :: l2).

(** What one chunk of a header decodes to, the exception of the first chunk
    that fails, and the text a chunk stands for. *)
Definition chunk_result {W} (env : Env W) (p : Chunk * option Py.str)
  : result Py.str :=
  match p with
  | (BytesChunk b, enc) => bytes_decode env (or_utf8 enc) b
  | (StrChunk s, _) => Ret s
  end.

Fixpoint first_failure {W} (env : Env W) (parts : list (Chunk * option Py.str))
  : option exn :=
  match parts with
  | [] => None
  | p :: rest =>
      match chunk_result env p with
      | Raise e => Some e
      | Ret _ => first_failure env rest
      end
  end.

Definition chunk_text {W} (env : Env W) (p : Chunk * option Py.str) : Py.str :=
  match chunk_result env p with
  | Ret text => text
  | Raise _ => []
  end.

(** The name has a codec, and that codec decodes every input when it is run
    with [errors="ignore"]. *)
Definition codec_accepts {W} (env : Env W) (name : Py.str) : Prop :=
  exists dec, codecs env name = Some dec /\ forall b, exists text, dec b = Ret text.

(** The charset a part names, or UTF-8, is such a name. *)
Definition charset_decodes {W} (env : Env W) (part : Message) : Prop :=
  codec_accepts env (or_utf8 (get_content_charset part)).

Definition chunk_decodes {W} (env : Env W) (p : Chunk * option Py.str) : Prop :=
  match p with
  | (BytesChunk _, enc) => codec_accepts env (or_utf8 enc)
  | (StrChunk _, _) => True
  end.

(** No multipart container is itself typed as text. *)
Definition containers_not_text (msg : Message) : Prop :=
  forall part, In part (walk msg) -> is_multipart part = true ->
               plain_candidate part = false /\ html_candidate part = false.


(** The records with their 1-based position in the unread list, and the two
    console lines shown for one of them. *)
Definition numbered (emails : list MailRecord) : list (nat * MailRecord) :=
  combine (seq 1 (length emails)) emails.

Definition shown_lines (p : nat * MailRecord) : list Event :=
  [Print (Listing (fst p) (mail_from (snd p)) (Py.take 60 (mail_subject (snd p))));
   Print (PreviewLine (Py.take 120 (mail_preview (snd p))))].

(** A record whose body is cut after [k] characters. *)
Definition with_body_cut (k : nat) (e : MailRecord) : MailRecord :=
  mkMail (mail_id e) (mail_subject e) (mail_from e) (mail_date e)
         (firstn k (mail_body e)) (mail_preview e).

(** Only console traffic, as a property of one event. *)
Definition console_event (ev : Event) : Prop := is_console ev = true.

(** An event of a turn over the records [emails]: console traffic, a send of
    the text of one of them, or the flagging of one of them. *)
Definition within (emails : list MailRecord) (ev : Event) : Prop :=
  match ev with
  | Create text _ => In text (map payload emails)
  | Store eid _ => In eid (map mail_id emails)
  | Print _ | Input _ _ => True
  | _ => False
  end.

(** The records of the poll a turn starts with; none when the poll raises. *)
Definition polled {W} (env : Env W) (s : Session W) : list MailRecord :=
  match fst (fst (fetch_unseen env s)) with
  | Ret emails => emails
  | Raise _ => []
  end.

(** The mailbox refuses to set flags; the gateway accepts. *)
Definition read_only_world : World :=
  mkWorld [fetched "1" mail1] [] (tok "OK") true [] [].

(** Whitespace only. *)
Definition blank (s : Py.str) : Prop := Forall (fun c => Py.isspace c = true) s.

(** An event from inside the session: neither the connection nor the
    logout. *)
Definition inside (ev : Event) : Prop :=
  match ev with
  | Connect | Logout => False
  | _ => True
  end.

(** How often a run selects the inbox, that is, how many polls it starts. *)
Definition is_select (ev : Event) : bool :=
  match ev with Select => true | _ => false end.

Definition polls_started (t : list Event) : nat := length (filter is_select t).

(** A word of a split: not empty and free of whitespace. *)
Definition word (w : Py.bytes) : Prop :=
  w <> [] /\ Forall (fun b => byte_isspace b = false) w.


(** A header that is empty, or that [decode_header] parses into chunks whose
    charsets all decode; and the text a header decodes to. *)
Definition header_decodes {W} (env : Env W) (h : Py.str) : Prop :=
  match h with
  | [] => True
  | _ => exists parts,
           decode_header env h = Ret parts /\ Forall (chunk_decodes env) parts
  end.

Definition header_text {W} (env : Env W) (h : Py.str) : Py.str :=
  match h with
  | [] => []
  | _ =>
      match decode_header env h with
      | Ret parts => concat (map (chunk_text env) parts)
      | Raise _ => []
      end
  end.

(** The sample boundary with a connection that breaks: [imap.select] raises
    at stage 0, [imap.search] at stage 1, [imap.fetch] at stage 2. *)
Definition dropped : exn := OtherError (tok "imaplib.IMAP4.abort").

Definition breaking_env (stage : nat) : Env World :=
  mkEnv (decode_header sample_env)
        (codecs sample_env)
        (imap_connect sample_env)
        (fun w => if stage =? 0 then (Raise dropped, w)
                  else imap_select sample_env w)
        (fun w => if stage =? 1 then (Raise dropped, w)
                  else imap_search sample_env w)
        (fun eid w => if stage =? 2 then (Raise dropped, w)
                      else imap_fetch sample_env eid w)
        (imap_store sample_env)
        (imap_logout sample_env)
        (messages_create sample_env).


(** The preview as the specification words it, reading "collapsed to single
    spaces" as it stands: every run of carriage returns and newlines becomes
    one space, then the ends are trimmed, then the result is cut at 400
    characters. *)
Fixpoint collapse_runs_from (in_run : bool) (s : Py.str) : Py.str :=
  match s with
  | [] => []
  | c :: s' =>
      if (c =? Py.CR)%N || (c =? Py.LF)%N
      then if in_run then collapse_runs_from true s'
           else Py.SP :: collapse_runs_from true s'
      else c :: collapse_runs_from false s'
  end.

Definition preview_as_claimed (body : Py.str) : Py.str :=
  firstn 400 (Py.strip (collapse_runs_from false body)).

Definition preview_collapses_runs : Prop :=
  forall body, preview_of body = preview_as_claimed body.

(** The disposition a part declares: the text of its [Content-Disposition]
    header before the first semicolon, trimmed and in lower case, as the
    header is read without regard to case. *)
Fixpoint before_semicolon (s : Py.str) : Py.str :=
  match s with
  | [] => []
  | c :: s' => if (c =? 59)%N then [] else c :: before_semicolon s'
  end.

Definition declared_attachment (part : Message) : bool :=
  Py.eqb (Py.lower (Py.strip (before_semicolon (disposition part))))
         (tok "attachment").

(** A message with a text attachment declared with a capital letter, placed
    before the text of the message; and one whose text is declared inline
    under a file name that holds the word. *)
Definition notes_part : Message :=
  Leaf (mkHeaders [] [] [] (tok "text/plain")
          (Some (tok "Attachment; filename=notes.txt")) None)
       (Py.bytes_of_string "my notes").

Definition greeting_part : Message :=
  Leaf (mkHeaders [] [] [] (tok "text/plain") None None)
       (Py.bytes_of_string "Dear Bob").

Definition mail_with_notes : Message :=
  Multipart (mkHeaders (tok "Notes") (tok "alice@example.org")
               (tok "Mon, 1 Jan 2024") (tok "multipart/mixed") None None)
            [notes_part; greeting_part].

Definition inline_part : Message :=
  Leaf (mkHeaders [] [] [] (tok "text/plain")
          (Some (tok "inline; filename=attachment-list.txt")) None)
       (Py.bytes_of_string "Dear Bob").

Definition mail_inline : Message :=
  Multipart (mkHeaders (tok "List") (tok "alice@example.org")
               (tok "Mon, 1 Jan 2024") (tok "multipart/mixed") None None)
            [inline_part].

(** ** Strings *)

Lemma eqb_eq (s t : Py.str) : Py.eqb s t = true <-> s = t.
Proof.
  revert t; induction s as [|c s IH]; intros [|d t]; simpl; split;
    try congruence; try reflexivity.
  - rewrite andb_true_iff, N.eqb_eq, IH. intros [-> ->]. reflexivity.
  - intros H; injection H as -> ->.
    rewrite N.eqb_refl. simpl. apply IH. reflexivity.
Qed.

Lemma eqb_neq (s t : Py.str) : Py.eqb s t = false <-> s <> t.
Proof.
  rewrite <- eqb_eq. destruct (Py.eqb s t); split; congruence.
Qed.

Lemma in_firstn A (x : A) n l : In x (firstn n l) -> In x l.
Proof.
  intros H. rewrite <- (firstn_skipn n l). apply in_or_app. now left.
Qed.

Lemma lstrip_map (f : N -> N) (s : Py.str) :
  (forall c, Py.isspace (f c) = Py.isspace c) ->
  Py.lstrip (map f s) = map f (Py.lstrip s).
Proof.
  intros Hf. induction s as [|c s IH]; simpl; [reflexivity|].
  rewrite Hf. destruct (Py.isspace c); [exact IH | reflexivity].
Qed.

Lemma strip_map (f : N -> N) (s : Py.str) :
  (forall c, Py.isspace (f c) = Py.isspace c) ->
  Py.strip (map f s) = map f (Py.strip s).
Proof.
  intros Hf. unfold Py.strip, Py.rstrip.
  rewrite (lstrip_map _ _ Hf), <- map_rev, (lstrip_map _ _ Hf), map_rev.
  reflexivity.
Qed.

Lemma collapse_keeps_space (c : N) :
  Py.isspace (if (c =? Py.CR)%N || (c =? Py.LF)%N then Py.SP else c)
  = Py.isspace c.
Proof.
  destruct (N.eqb_spec c Py.CR) as [->|_]; [reflexivity|].
  destruct (N.eqb_spec c Py.LF) as [->|_]; reflexivity.
Qed.

Lemma replace_twice (s : Py.str) :
  Py.replace Py.LF Py.SP (Py.replace Py.CR Py.SP s) = collapse_breaks s.
Proof.
  unfold Py.replace, collapse_breaks. rewrite map_map. apply map_ext.
  intros c. destruct (N.eqb_spec c Py.CR) as [->|_]; [reflexivity|].
  simpl. reflexivity.
Qed.

Lemma collapse_no_break (s : Py.str) :
  ~ In Py.CR (collapse_breaks s) /\ ~ In Py.LF (collapse_breaks s).
Proof.
  unfold collapse_breaks; split; intros H; apply in_map_iff in H;
    destruct H as (c & Hc & _);
    destruct (N.eqb_spec c Py.CR) as [E1|H1]; simpl in Hc;
    try discriminate;
    destruct (N.eqb_spec c Py.LF) as [E2|H2]; simpl in Hc;
    try discriminate; congruence.
Qed.

Lemma preview_eq (body : Py.str) : preview_of body = preview_spec body.
Proof.
  unfold preview_of, preview_spec, Py.take.
  rewrite replace_twice. unfold collapse_breaks.
  rewrite strip_map by apply collapse_keeps_space. reflexivity.
Qed.

Lemma build_record_preview W (env : Env W) eid msg r :
  build_record env eid msg = Ret r ->
  mail_preview r = preview_of (mail_body r) /\ mail_id r = eid.
Proof.
  unfold build_record.
  destruct (decode_mime env (h_subject (headers msg))); [|discriminate].
  destruct (decode_mime env (h_from (headers msg))); [|discriminate].
  destruct (decode_mime env (h_date (headers msg))); [|discriminate].
  destruct (get_body env msg); [|discriminate].
  intros H; injection H as <-. split; reflexivity.
Qed.

(** ** Selection *)

Lemma last_n_suffix A k (l : list A) :
  exists front, l = front ++ Py.last_n k l.
Proof.
  exists (firstn (length l - k) l). unfold Py.last_n.
  now rewrite firstn_skipn.
Qed.

Lemma last_n_length A k (l : list A) :
  length (Py.last_n k l) = Nat.min k (length l).
Proof.
  unfold Py.last_n. rewrite length_skipn. lia.
Qed.

(** C2.  [LAST_ONE] gives exactly the last record, and nothing on an empty
    list; [LAST_THREE] gives the final [min 3 n] records in their order;
    [ALL] gives the list as it is. *)
Theorem select_policy A (records : list A) :
  (select (@nil A) LAST_ONE = []
   /\ forall (front : list A) (x : A), select (front ++ [x]) LAST_ONE = [x])
  /\ (length (select records LAST_THREE) = Nat.min 3 (length records)
      /\ select records LAST_THREE
         = skipn (length records - Nat.min 3 (length records)) records
      /\ exists front, records = front ++ select records LAST_THREE)
  /\ select records ALL = records.
Proof.
  split; [split|split; [|reflexivity]].
  - reflexivity.
  - intros front x. unfold select, Py.last_n.
    rewrite length_app; simpl length.
    assert (E : (1 <=? length front + 1) = true) by (apply Nat.leb_le; lia).
    rewrite E.
    replace (length front + 1 - 1) with (length front) by lia.
    rewrite skipn_app, Nat.sub_diag, skipn_all. reflexivity.
  - unfold select. destruct records as [|r rs]; [repeat split; now exists []|].
    change (1 <=? length (r :: rs)) with true. cbv iota.
    split; [apply last_n_length|]. split; [|apply last_n_suffix].
    unfold Py.last_n. f_equal. lia.
Qed.

(** ** Running the monad *)

Lemma bind_run W A B (m : M W A) (k : A -> M W B) (s : Session W) :
  bind m k s
  = match m s with
    | (Ret a, s1, t1) => match k a s1 with (r, s2, t2) => (r, s2, t1 ++ t2) end
    | (Raise e, s1, t1) => (Raise e, s1, t1)
    end.
Proof. reflexivity. Qed.

Lemma print_run W (c : Console) (s : Session W) :
  print c s = (Ret tt, s, [Print c]).
Proof. reflexivity. Qed.

Lemma ret_run W A (a : A) (s : Session W) : ret a s = (Ret a, s, []).
Proof. reflexivity. Qed.

Lemma input_run W (p : Prompt) (s : Session W) line rest :
  stdin s = line :: rest ->
  input p s = (Ret line, mkSession (world s) rest, [Input p line]).
Proof. unfold input. intros ->. reflexivity. Qed.

Lemma read_token_run W (p : Prompt) (s : Session W) line rest :
  stdin s = line :: rest ->
  read_token p s
  = (Ret (normalize line), mkSession (world s) rest, [Input p line]).
Proof.
  intros H. unfold read_token. rewrite bind_run, (input_run _ _ H).
  reflexivity.
Qed.

(** ** Body extraction *)

Section Decoder.

Context {W : Type} (env : Env W).

Lemma scan_plain_find (parts : list Message) :
  scan_plain env parts
  = option_map (decode_payload env) (find plain_candidate parts).
Proof.
  induction parts as [|p ps IH]; simpl; [reflexivity|].
  unfold plain_candidate at 1.
  destruct (Py.eqb (get_content_type p) (tok "text/plain")
            && negb (Py.contains (tok "attachment") (disposition p)));
    [reflexivity | exact IH].
Qed.

Lemma scan_html_find (parts : list Message) :
  scan_html env parts
  = option_map (decode_payload env) (find html_candidate parts).
Proof.
  induction parts as [|p ps IH]; simpl; [reflexivity|].
  unfold html_candidate at 1.
  destruct (Py.eqb (get_content_type p) (tok "text/html"));
    [reflexivity | exact IH].
Qed.

(** A missing or empty charset is read as UTF-8. *)
Lemma missing_charset_is_utf8 (h : Headers) (b : Py.bytes) :
  h_content_charset h = None \/ h_content_charset h = Some [] ->
  get_body env (Leaf h b) = bytes_decode env (tok "utf-8") b.
Proof.
  unfold get_body, decode_payload, get_content_charset; simpl.
  intros [-> | ->]; reflexivity.
Qed.

(** A charset the codec table does not know makes [get_body] raise. *)
Lemma unknown_charset_raises (h : Headers) (b : Py.bytes) c cs :
  h_content_charset h = Some (c :: cs) ->
  codecs env (c :: cs) = None ->
  get_body env (Leaf h b) = Raise (LookupError (c :: cs)).
Proof.
  intros Hc Hk.
  unfold get_body, decode_payload, get_content_charset, bytes_decode; simpl.
  rewrite Hc; simpl. rewrite Hk. reflexivity.
Qed.

(** So does an encoded word of a header that names such a charset. *)
Lemma unknown_header_charset_raises (s : Py.str) b c cs rest :
  s <> [] ->
  decode_header env s = Ret ((BytesChunk b, Some (c :: cs)) :: rest) ->
  codecs env (c :: cs) = None ->
  decode_mime env s = Raise (LookupError (c :: cs)).
Proof.
  intros Hs Hd Hk. unfold decode_mime.
  destruct s as [|x xs]; [contradiction|].
  rewrite Hd. simpl. unfold bytes_decode. rewrite Hk. reflexivity.
Qed.

End Decoder.

(** The two loops of [get_body] are searches for the first part that passes
    the test of the loop. *)
Lemma get_body_first_match W (env : Env W) (msg : Message) :
  get_body env msg = get_body_spec env msg.
Proof.
  unfold get_body, get_body_spec.
  rewrite scan_plain_find, scan_html_find.
  destruct (is_multipart msg); [|reflexivity].
  destruct (find plain_candidate (walk msg)); simpl; [reflexivity|].
  destruct (find html_candidate (walk msg)); reflexivity.
Qed.

(** ** The gateway *)

Section Dispatch.

Context {W : Type} (env : Env W).

Lemma send_whatsapp_run (text : Py.str) (s : Session W) :
  send_whatsapp env text s
  = (handed_back (fst (messages_create env text (world s))),
     mkSession (snd (messages_create env text (world s))) (stdin s),
     [Create text (fst (messages_create env text (world s)))]).
Proof.
  unfold send_whatsapp, try_except, call.
  destruct (messages_create env text (world s)) as [[sid|e] w]; simpl;
    [reflexivity|].
  destruct e; reflexivity.
Qed.

Lemma error_text_prefix (msg : Py.str) (code : option Py.str) :
  Py.startswith (tok "ERROR: ") (error_text msg code) = true
  /\ Py.startswith (tok "ERROR") (error_text msg code) = true.
Proof. split; reflexivity. Qed.

(** The three ways one turn of the dispatch loop can go. *)
Lemma send_one_run (i total : nat) (e : MailRecord) (s : Session W) :
  let o := fst (messages_create env (payload e) (world s)) in
  let w := snd (messages_create env (payload e) (world s)) in
  let head := [Print (Sending i total (Py.take 60 (mail_subject e)));
               Create (payload e) o] in
  match handed_back o with
  | Raise ex =>
      send_one env i total e s = (Raise ex, mkSession w (stdin s), head)
  | Ret r =>
      if delivered r then
        let so := fst (imap_store env (mail_id e) w) in
        let w' := snd (imap_store env (mail_id e) w) in
        send_one env i total e s
        = (Ret tt, mkSession w' (stdin s),
           head ++ [Print (ResultLine r); Store (mail_id e) so]
                ++ match so with
                   | Ret _ => []
                   | Raise ex => [Print (MarkWarning ex)]
                   end)
      else
        send_one env i total e s
        = (Ret tt, mkSession w (stdin s),
           head ++ [Print (ResultLine r); Print NotMarked])
  end.
Proof.
  intros o w head. subst o w head.
  unfold send_one. rewrite bind_run, print_run, bind_run, send_whatsapp_run.
  destruct (handed_back (fst (messages_create env (payload e) (world s))))
    as [r|ex] eqn:Hb; [|reflexivity].
  rewrite bind_run, print_run.
  destruct (delivered r) eqn:Hd.
  - unfold try_except, mark_seen, call; simpl.
    destruct (imap_store env (mail_id e) _) as [[[]|ex] w']; reflexivity.
  - reflexivity.
Qed.

End Dispatch.

(** C4, as written, fails when the transport raises anything but a
    [TwilioRestException]: a dropped connection goes straight through
    [send_whatsapp] to its caller. *)
Lemma send_can_raise : ~ send_never_raises.
Proof.
  intros H.
  destruct (H World sample_env (tok "hello")
              (mkSession
                 (mkWorld [] [] (tok "OK") false
                    [Raise (OtherError (tok "requests.exceptions.ConnectionError"))]
                    [])
                 [])) as [r Hr].
  discriminate Hr.
Qed.

(** C4, amended.  [send_whatsapp] makes exactly one [messages.create] call.
    When the transport accepts, the delivery identifier is returned; when it
    rejects with a [TwilioRestException], nothing is raised and the string
    ["ERROR: <msg> (code <code>)"] built from the transport's message and code
    is returned; an exception of any other class is passed on to the
    caller. *)
Theorem send_whatsapp_outcomes W (env : Env W) (text : Py.str) (s : Session W) :
  let o := fst (messages_create env text (world s)) in
  snd (send_whatsapp env text s) = [Create text o]
  /\ match o with
     | Ret sid => fst (fst (send_whatsapp env text s)) = Ret sid
     | Raise (TwilioRestException msg code) =>
         fst (fst (send_whatsapp env text s)) = Ret (Some (error_text msg code))
         /\ Py.startswith (tok "ERROR: ") (error_text msg code) = true
     | Raise e => fst (fst (send_whatsapp env text s)) = Raise e
     end.
Proof.
  intros o. subst o. rewrite send_whatsapp_run. simpl.
  split; [reflexivity|].
  destruct (fst (messages_create env text (world s))) as [sid|e];
    [reflexivity|].
  destruct e; try reflexivity. split; reflexivity.
Qed.

(** C9.  In one turn of the dispatch loop the record is flagged if and only
    if [send_whatsapp] returned a string that does not start with ["ERROR"],
    and no other record is flagged.  A rejection comes back as a string that
    starts with ["ERROR: "], an acceptance as the delivery identifier itself,
    so a delivery identifier that starts with ["ERROR"] leaves its record
    unflagged. *)
Theorem flagged_iff_no_error_prefix W (env : Env W) (i total : nat)
    (e : MailRecord) (s : Session W) :
  let o := fst (messages_create env (payload e) (world s)) in
  let r := fst (fst (send_whatsapp env (payload e) s)) in
  let t := snd (send_one env i total e s) in
  ((exists so, In (Store (mail_id e) so) t)
   <-> exists x, r = Ret (Some x) /\ Py.startswith (tok "ERROR") x = false)
  /\ (forall eid so, In (Store eid so) t -> eid = mail_id e)
  /\ (forall msg code,
        o = Raise (TwilioRestException msg code) ->
        r = Ret (Some (error_text msg code))
        /\ Py.startswith (tok "ERROR: ") (error_text msg code) = true)
  /\ (forall sid, o = Ret sid -> r = Ret sid)
  /\ (forall x,
        o = Ret (Some x) -> Py.startswith (tok "ERROR") x = true ->
        forall so, ~ In (Store (mail_id e) so) t).
Proof.
  intros o r t. subst r t. rewrite send_whatsapp_run. simpl fst. fold o.
  pose proof (send_one_run env i total e s) as R. cbv zeta in R. fold o in R.
  assert (Hiff :
    (exists so, In (Store (mail_id e) so) (snd (send_one env i total e s)))
    <-> exists x, handed_back o = Ret (Some x)
                  /\ Py.startswith (tok "ERROR") x = false).
  { destruct (handed_back o) as [r|ex].
    - destruct (delivered r) eqn:Hd; rewrite R; simpl.
      + split.
        * intros _. destruct r as [x|]; [|discriminate].
          exists x. split; [reflexivity|]. simpl in Hd.
          now apply negb_true_iff in Hd.
        * intros _. eexists. right. right. right. left. reflexivity.
      + split.
        * intros [so [H|[H|[H|[H|[]]]]]]; discriminate.
        * intros (x & Hx & Hp). injection Hx as ->. simpl in Hd.
          rewrite Hp in Hd. discriminate.
    - rewrite R; simpl. split.
      + intros [so [H|[H|[]]]]; discriminate.
      + intros (x & Hx & _). discriminate. }
  split; [exact Hiff|]. split; [|split; [|split]].
  - intros eid so Hin. destruct (handed_back o) as [r|ex].
    + destruct (delivered r); rewrite R in Hin; simpl in Hin.
      * destruct Hin as [H|[H|[H|[H|H]]]]; try discriminate.
        -- now injection H.
        -- destruct (fst (imap_store env (mail_id e) _));
             [destruct H | destruct H as [H|[]]; discriminate].
      * destruct Hin as [H|[H|[H|[H|[]]]]]; discriminate.
    + rewrite R in Hin; simpl in Hin.
      destruct Hin as [H|[H|[]]]; discriminate.
  - intros msg code ->. split; reflexivity.
  - intros sid ->. reflexivity.
  - intros x Ho Hp so Hin.
    destruct (proj1 Hiff (ex_intro _ so Hin)) as (y & Hy & Hq).
    rewrite Ho in Hy. simpl in Hy. injection Hy as <-. congruence.
Qed.

(** ** One pass over a selection *)

Lemma send_each_run W (env : Env W) (emails : list MailRecord) :
  forall i total s,
  pass_run emails (fst (fst (send_each env i total emails s)))
           (dispatch_calls (snd (send_each env i total emails s))).
Proof.
  induction emails as [|e es IH]; intros i total s; [constructor|].
  simpl send_each. rewrite bind_run.
  pose proof (send_one_run env i total e s) as R. cbv zeta in R.
  destruct (fst (messages_create env (payload e) (world s))) as [sid|ex].
  - destruct sid as [x|];
      [destruct (Py.startswith (tok "ERROR") x) eqn:Hp|];
      cbn [handed_back delivered negb] in R; try rewrite Hp in R;
      cbn [negb] in R; rewrite R;
      match goal with
      | |- context [send_each env (S i) total es ?s1] =>
          specialize (IH (S i) total s1);
          destruct (send_each env (S i) total es s1) as [[r2 s2] t2]
      end;
      cbn [fst snd] in *; unfold dispatch_calls in *; rewrite !filter_app.
    + cbn [filter is_dispatch app]. apply run_unflagged; [|exact IH].
      intros y Hy. injection Hy as <-. exact Hp.
    + destruct (fst (imap_store env (mail_id e) _));
        cbn [filter is_dispatch app]; now apply run_flagged.
    + cbn [filter is_dispatch app]. apply run_unflagged; [|exact IH].
      discriminate.
  - destruct ex; cbn [handed_back delivered negb] in R;
      try (rewrite R; cbn [fst snd]; unfold dispatch_calls;
           cbn [filter is_dispatch app]; apply run_aborted; discriminate).
    change (Py.startswith (tok "ERROR") (error_text msg code)) with true in R.
    cbn [negb] in R. rewrite R.
    match goal with
    | |- context [send_each env (S i) total es ?s1] =>
        specialize (IH (S i) total s1);
        destruct (send_each env (S i) total es s1) as [[r2 s2] t2]
    end.
    cbn [fst snd] in *. unfold dispatch_calls in *. rewrite !filter_app.
    cbn [filter is_dispatch app]. now apply run_rejected.
Qed.

(** C1, as written, fails: a send that ends in an exception other than a
    [TwilioRestException] ends the pass, and the second record is never
    sent. *)
Lemma dropped_send_ends_pass : ~ pass_as_claimed.
Proof.
  intros H.
  specialize (H World sample_env [record1; record2]
                (mkSession dropping_world [])).
  assert (E : gateway_calls
                (snd (send_batch sample_env [record1; record2]
                        (mkSession dropping_world [])))
              = [Create (payload record1)
                   (Raise (OtherError
                             (tok "requests.exceptions.ConnectionError")))])
    by (vm_compute; reflexivity).
  rewrite E in H. inversion H as [| |e es ex t Hrest]; subst.
  inversion Hrest.
Qed.

(** C1, amended.  A pass takes the records in the order of the selection.
    For a record whose send comes back, the result is shown, [mark_seen] is
    called with that record's id exactly when the result is a string that
    does not start with ["ERROR"], and the pass goes on to the next record
    whether the send was accepted or rejected and whether [mark_seen]
    returned or raised.  A send that raises anything but a
    [TwilioRestException] ends the pass with that exception: the records
    after it are neither sent nor flagged.  The pass ends well when no send
    raises such an exception. *)
Theorem send_batch_run W (env : Env W) (emails : list MailRecord)
    (s : Session W) :
  pass_run emails (fst (fst (send_batch env emails s)))
           (dispatch_calls (snd (send_batch env emails s))).
Proof.
  destruct emails as [|e es]; [constructor|].
  unfold send_batch. apply send_each_run.
Qed.

(** ** The confirmation prompt *)

Lemma show_selected_run W (env : Env W) (selected : list MailRecord) :
  forall i (s : Session W),
  exists t, show_selected i selected s = (Ret tt, s, t)
            /\ forallb is_console t = true.
Proof.
  induction selected as [|e es IH]; intros i s.
  - exists []. split; reflexivity.
  - simpl show_selected. rewrite bind_run, print_run.
    destruct (IH (S i) s) as (t & E & C). rewrite E.
    eexists. split; [reflexivity | exact C].
Qed.

Lemma console_no_create (t : list Event) :
  forallb is_console t = true ->
  (forall text o, ~ In (Create text o) t)
  /\ (forall eid so, ~ In (Store eid so) t).
Proof.
  intros C. rewrite forallb_forall in C.
  split; intros; intros Hin; apply C in Hin; discriminate.
Qed.

(** C8.  At the confirmation prompt every answer other than [y] (after
    trimming and lowering) cancels: the turn makes no gateway call and no
    mailbox call, only console traffic, and leaves the world as it was. *)
Theorem cancel_sends_nothing W (env : Env W) (selected : list MailRecord)
    (s : Session W) (line : Py.str) (rest : list Py.str) :
  stdin s = line :: rest ->
  normalize line <> tok "y" ->
  fst (confirming env selected s) = (Ret tt, mkSession (world s) rest)
  /\ forallb is_console (snd (confirming env selected s)) = true
  /\ (forall text o, ~ In (Create text o) (snd (confirming env selected s)))
  /\ (forall eid so, ~ In (Store eid so) (snd (confirming env selected s)))
  /\ In (Print Cancelled) (snd (confirming env selected s)).
Proof.
  intros Hin Hno. apply eqb_neq in Hno.
  unfold confirming. rewrite bind_run, print_run, bind_run.
  destruct (show_selected_run env selected 1 s) as (t & E & C). rewrite E.
  rewrite bind_run, (read_token_run _ _ Hin), Hno, print_run. simpl.
  assert (C' : forallb is_console (t ++ [Input AskConfirm line; Print Cancelled])
               = true).
  { rewrite forallb_app, C. reflexivity. }
  split; [reflexivity|]. split; [exact C'|].
  split; [|split].
  - intros text o [H|H]; [discriminate|].
    exact (proj1 (console_no_create _ C') text o H).
  - intros eid so [H|H]; [discriminate|].
    exact (proj2 (console_no_create _ C') eid so H).
  - right. apply in_or_app. right. right. left. reflexivity.
Qed.

(** ** The option prompt *)





(** ** Polling *)

Section Polling.

Context {W : Type} (env : Env W).

Lemma fetch_unseen_run (s : Session W) w1 status m w2 :
  imap_select env (world s) = (Ret tt, w1) ->
  imap_search env w1 = (Ret (status, m), w2) ->
  fetch_unseen env s
  = if negb (Py.eqb status (tok "OK"))
    then (Ret [], mkSession w2 (stdin s), [Select; Search])
    else match fetch_each env (bytes_split m) [] (mkSession w2 (stdin s)) with
         | (r, s', t) => (r, s', Select :: Search :: t)
         end.
Proof.
  intros Hsel Hsea. unfold fetch_unseen.
  rewrite bind_run. unfold call at 1. rewrite Hsel.
  rewrite bind_run. unfold call at 1. simpl world. rewrite Hsea. simpl stdin.
  destruct (negb (Py.eqb status (tok "OK"))); [reflexivity|].
  destruct (fetch_each env (bytes_split m) [] _) as [[r s'] t]. reflexivity.
Qed.

(** A message the parser cannot read is left out. *)
Lemma unparsable_is_skipped (eid : Py.bytes) (s : Session W) envl ex rest w1 :
  imap_fetch env eid (world s)
  = (Ret (tok "OK", Some (Tuple envl (Raise ex)) :: rest), w1) ->
  fetch_one env eid s = (Ret None, mkSession w1 (stdin s), [Fetch eid]).
Proof.
  intros H. unfold fetch_one. rewrite bind_run. unfold call. rewrite H.
  reflexivity.
Qed.

Lemma fetch_one_skips (eid : Py.bytes) (s : Session W) res data w1 :
  imap_fetch env eid (world s) = (Ret (res, data), w1) ->
  res <> tok "OK" \/ data = [] \/ (exists rest, data = None :: rest) ->
  fetch_one env eid s = (Ret None, mkSession w1 (stdin s), [Fetch eid]).
Proof.
  intros H Hbad. unfold fetch_one. rewrite bind_run. unfold call. rewrite H.
  cbv iota beta.
  destruct (Py.eqb res (tok "OK")) eqn:E; [|reflexivity].
  apply eqb_eq in E.
  destruct Hbad as [Hres | [-> | [rest ->]]];
    [contradiction | reflexivity | reflexivity].
Qed.

End Polling.

(** C10.  When the search does not report ["OK"], [fetch_unseen] returns the
    empty list, with the very result and calls of a poll whose search
    reports ["OK"] and lists no id; and a message whose fetch does not report
    ["OK"], or comes back with no data, adds nothing to the records and does
    not stop the poll. *)
Theorem retrieval_failure_looks_empty W (env : Env W) (s : Session W) :
  (forall w1 status m w2,
      imap_select env (world s) = (Ret tt, w1) ->
      imap_search env w1 = (Ret (status, m), w2) ->
      status <> tok "OK" ->
      fetch_unseen env s = (Ret [], mkSession w2 (stdin s), [Select; Search]))
  /\ (forall w1 m w2,
      imap_select env (world s) = (Ret tt, w1) ->
      imap_search env w1 = (Ret (tok "OK", m), w2) ->
      bytes_split m = [] ->
      fetch_unseen env s = (Ret [], mkSession w2 (stdin s), [Select; Search]))
  /\ (forall eid res data w1 rest results,
      imap_fetch env eid (world s) = (Ret (res, data), w1) ->
      res <> tok "OK" \/ data = [] \/ (exists more, data = None :: more) ->
      fetch_one env eid s = (Ret None, mkSession w1 (stdin s), [Fetch eid])
      /\ fetch_each env (eid :: rest) results s
         = match fetch_each env rest results (mkSession w1 (stdin s)) with
           | (r, s', t) => (r, s', Fetch eid :: t)
           end).
Proof.
  split; [|split].
  - intros w1 status m w2 Hsel Hsea Hst.
    rewrite (fetch_unseen_run _ _ Hsel Hsea).
    apply eqb_neq in Hst. rewrite Hst. reflexivity.
  - intros w1 m w2 Hsel Hsea Hm.
    rewrite (fetch_unseen_run _ _ Hsel Hsea), Hm. reflexivity.
  - intros eid res data w1 rest results Hf Hbad.
    pose proof (fetch_one_skips _ _ _ Hf Hbad) as E.
    split; [exact E|].
    simpl fetch_each. rewrite bind_run, E.
    destruct (fetch_each env rest results _) as [[r s'] t]. reflexivity.
Qed.

(** ** Decoding failures *)

(** C3, at the failing input.  One unread message that names a charset the
    codec table does not know makes [get_body] raise [LookupError]; the
    exception is caught neither in [fetch_unseen], which loses the whole poll
    with it, nor in [interactive_loop], which ends on it. *)
Theorem unknown_charset_ends_session :
  get_body sample_env odd_charset_mail = Raise (LookupError (tok "x-unknown"))
  /\ fst (fst (fetch_unseen sample_env (mkSession odd_mailbox [tok "q"])))
     = Raise (LookupError (tok "x-unknown"))
  /\ fst (fst (interactive_loop sample_env (mkSession odd_mailbox [tok "q"])))
     = Raise (LookupError (tok "x-unknown")).
Proof. repeat split; vm_compute; reflexivity. Qed.

(** ** The loop always has fuel enough *)

Section Fuel.

Context {W : Type} (env : Env W).

Lemma keeps_ret A (a : A) : keeps_input (@ret W A a).
Proof. intros s. simpl. lia. Qed.

Lemma keeps_raise A (e : exn) : keeps_input (@raise W A e).
Proof. intros s. simpl. lia. Qed.

Lemma keeps_print (c : Console) : keeps_input (@print W c).
Proof. intros s. simpl. lia. Qed.

Lemma keeps_call A (op : W -> result A * W) ev : keeps_input (call op ev).
Proof. intros s. unfold call. destruct (op (world s)). simpl. lia. Qed.

Lemma keeps_read (p : Prompt) : keeps_input (@input W p).
Proof. intros s. unfold input. destruct (stdin s) eqn:E; simpl; rewrite ?E; simpl; lia. Qed.

Lemma keeps_lift A (r : result A) : keeps_input (@lift A r W).
Proof. destruct r; [apply keeps_ret | apply keeps_raise]. Qed.

Lemma keeps_bind A B (m : M W A) (k : A -> M W B) :
  keeps_input m -> (forall a, keeps_input (k a)) -> keeps_input (bind m k).
Proof.
  intros Hm Hk s. rewrite bind_run. specialize (Hm s).
  destruct (m s) as [[[a|e] s1] t1]; simpl in *; [|exact Hm].
  specialize (Hk a s1). destruct (k a s1) as [[r s2] t2]; simpl in *. lia.
Qed.

Lemma keeps_try_except A (m : M W A) (h : exn -> option (M W A)) :
  keeps_input m -> (forall e k, h e = Some k -> keeps_input k) ->
  keeps_input (try_except m h).
Proof.
  intros Hm Hh s. unfold try_except. specialize (Hm s).
  destruct (m s) as [[[a|e] s1] t1]; simpl in *; [exact Hm|].
  destruct (h e) as [k|] eqn:E; [|exact Hm].
  specialize (Hh e k E s1). destruct (k s1) as [[r s2] t2]; simpl in *. lia.
Qed.

Lemma keeps_try_finally A (m : M W A) (c : M W unit) :
  keeps_input m -> keeps_input c -> keeps_input (try_finally m c).
Proof.
  intros Hm Hc s. unfold try_finally. specialize (Hm s).
  destruct (m s) as [[r s1] t1]; simpl in *.
  specialize (Hc s1). destruct (c s1) as [[[u|e] s2] t2]; simpl in *; lia.
Qed.

Ltac keeps :=
  repeat lazymatch goal with
    | |- keeps_input (bind _ _) => apply keeps_bind; [|intros ?]
    | |- keeps_input (ret _) => apply keeps_ret
    | |- keeps_input (raise _) => apply keeps_raise
    | |- keeps_input (print _) => apply keeps_print
    | |- keeps_input (call _ _) => apply keeps_call
    | |- keeps_input (input _) => apply keeps_read
    | |- keeps_input (lift _) => apply keeps_lift
    | |- keeps_input (try_except _ _) =>
        apply keeps_try_except; [|intros ? ? ?]
    end.

Lemma keeps_fetch_one (eid : Py.bytes) : keeps_input (fetch_one env eid).
Proof.
  unfold fetch_one. keeps. destruct a as [res data].
  destruct (negb (Py.eqb res (tok "OK"))); keeps.
  destruct data as [|[[envl [msg|ex]|b]|] more]; keeps.
Qed.

Lemma keeps_fetch_each (ids : list Py.bytes) :
  forall results, keeps_input (fetch_each env ids results).
Proof.
  induction ids as [|eid rest IH]; intros results; simpl; keeps.
  - apply keeps_fetch_one.
  - destruct a; apply IH.
Qed.

Lemma keeps_fetch_unseen : keeps_input (fetch_unseen env).
Proof.
  unfold fetch_unseen. keeps. destruct a0 as [status m].
  destruct (negb (Py.eqb status (tok "OK"))); keeps. apply keeps_fetch_each.
Qed.

Lemma keeps_send_one i total e : keeps_input (send_one env i total e).
Proof.
  unfold send_one, send_whatsapp, mark_seen. keeps.
  - destruct e0; try discriminate. injection H as <-. keeps.
  - destruct (delivered a0); keeps. injection H as <-. keeps.
Qed.

Lemma keeps_send_each (emails : list MailRecord) :
  forall i total, keeps_input (send_each env i total emails).
Proof.
  induction emails as [|e es IH]; intros i total; simpl; keeps.
  - apply keeps_send_one.
  - apply IH.
Qed.

Lemma keeps_send_batch (emails : list MailRecord) :
  keeps_input (send_batch env emails).
Proof.
  unfold send_batch. destruct emails; [apply keeps_print | apply keeps_send_each].
Qed.

Lemma keeps_list_each (emails : list MailRecord) :
  forall idx, keeps_input (@list_each W idx emails).
Proof. induction emails as [|e es IH]; intros idx; simpl; keeps. apply IH. Qed.

Lemma keeps_show_selected (emails : list MailRecord) :
  forall i, keeps_input (@show_selected W i emails).
Proof. induction emails as [|e es IH]; intros i; simpl; keeps. apply IH. Qed.

Lemma keeps_presenting (emails : list MailRecord) :
  keeps_input (@presenting W emails).
Proof.
  unfold presenting. keeps.
  destruct (0 <? length emails); keeps. apply keeps_list_each.
Qed.

Lemma keeps_read_token (p : Prompt) : keeps_input (@read_token W p).
Proof. unfold read_token. keeps. Qed.

Lemma keeps_confirming (selected : list MailRecord) :
  keeps_input (confirming env selected).
Proof.
  unfold confirming. keeps.
  - apply keeps_show_selected.
  - apply keeps_read_token.
  - destruct (Py.eqb a1 (tok "y")); keeps. apply keeps_send_batch.
Qed.

Lemma keeps_continue_prompt : keeps_input (@continue_prompt W).
Proof.
  unfold continue_prompt. keeps; [apply keeps_read_token|].
  destruct (negb (Py.eqb a (tok "y"))); keeps.
Qed.

(** A turn that does not raise has read at least one operator line. *)
Lemma awaiting_choice_reads (emails : list MailRecord) (s : Session W) :
  match awaiting_choice env emails s with
  | (Ret _, s', _) => length (stdin s') < length (stdin s)
  | (Raise _, _, _) => True
  end.
Proof.
  unfold awaiting_choice. rewrite bind_run.
  destruct (stdin s) as [|line rest] eqn:E.
  - unfold read_token, input. rewrite bind_run, E. exact I.
  - rewrite (read_token_run _ _ E).
    match goal with
    | |- context [?k (mkSession (world s) rest)] =>
        assert (K : keeps_input k)
    end.
    { destruct (Py.eqb (normalize line) (tok "q")); keeps.
      destruct (Py.eqb (normalize line) (tok "r")); keeps.
      destruct (length emails =? 0); keeps.
      destruct (parse_choice (normalize line)); keeps.
      - apply keeps_confirming.
      - apply keeps_continue_prompt. }
    specialize (K (mkSession (world s) rest)).
    match goal with
    | |- context [?k (mkSession (world s) rest)] =>
        destruct (k (mkSession (world s) rest)) as [[[c|ex] s2] t2]
    end; simpl in *; [lia | exact I].
Qed.

Lemma iteration_reads (s : Session W) :
  match iteration env s with
  | (Ret _, s', _) => length (stdin s') < length (stdin s)
  | (Raise _, _, _) => True
  end.
Proof.
  unfold iteration. rewrite bind_run, print_run, bind_run.
  pose proof (keeps_fetch_unseen s) as K1.
  destruct (fetch_unseen env s) as [[[emails|ex] s1] t1]; simpl in K1;
    [|exact I].
  rewrite bind_run.
  pose proof (keeps_presenting emails s1) as K2.
  destruct (presenting emails s1) as [[[u|ex] s2] t2]; simpl in K2; [|exact I].
  pose proof (awaiting_choice_reads emails s2) as K3.
  destruct (awaiting_choice env emails s2) as [[[c|ex] s3] t3]; [lia | exact I].
Qed.

Lemma loop_has_fuel (fuel : nat) :
  forall s, length (stdin s) < fuel ->
  fst (fst (loop env fuel s)) <> Ret None.
Proof.
  induction fuel as [|fuel IH]; intros s Hlen; [lia|].
  simpl loop. rewrite bind_run.
  pose proof (iteration_reads s) as K.
  destruct (iteration env s) as [[[c|ex] s1] t1]; [|discriminate].
  destruct c.
  - specialize (IH s1 ltac:(lia)).
    destruct (loop env fuel s1) as [[r s2] t2]. exact IH.
  - discriminate.
Qed.

(** [interactive_loop] never stops for want of fuel: it ends because the
    operator quits or because an exception leaves the loop. *)
Lemma interactive_loop_total (s : Session W) :
  fst (fst (interactive_loop env s)) <> Ret None.
Proof.
  unfold interactive_loop. rewrite bind_run. unfold connect_imap, call.
  destruct (imap_connect env (world s)) as [[[]|ex] w]; [|discriminate].
  unfold try_finally. cbv iota beta.
  pose proof (@loop_has_fuel (S (length (stdin s)))
                (mkSession w (stdin s)) ltac:(simpl; lia)) as K.
  destruct (loop env (S (length (stdin s))) (mkSession w (stdin s)))
    as [[r s1] t1].
  unfold logout_quietly, try_except, call.
  destruct (imap_logout env (world s1)) as [[[]|ex] w2]; exact K.
Qed.

End Fuel.

(** ** The statements at sample inputs *)

(** The first send is rejected, the second accepted: the pass runs to its
    end over both records. *)
Example rejected_then_accepted_run :
  fst (fst (send_batch sample_env [record1; record2]
              (mkSession rejecting_world []))) = Ret tt
  /\ gateway_calls
       (snd (send_batch sample_env [record1; record2]
               (mkSession rejecting_world [])))
     = [Create (payload record1)
          (Raise (TwilioRestException (tok "Invalid number")
                    (Some (tok "21211"))));
        Create (payload record2) (Ret (Some (tok "SM2")));
        Store (mail_id record2) (Ret tt)].
Proof. split; vm_compute; reflexivity. Qed.

(** The connection drops on the first send: the pass ends there, nothing is
    flagged and the second record is not sent. *)
Example dropped_send_run :
  fst (fst (send_batch sample_env [record1; record2]
              (mkSession dropping_world [])))
  = Raise (OtherError (tok "requests.exceptions.ConnectionError"))
  /\ sent (world (snd (fst (send_batch sample_env [record1; record2]
                              (mkSession dropping_world []))))) = []
  /\ map entry_seen
       (inbox (world (snd (fst (send_batch sample_env [record1; record2]
                                  (mkSession dropping_world []))))))
     = [false; false].
Proof. repeat split; vm_compute; reflexivity. Qed.

(** After that pass only the second message is flagged, and only its text
    went out. *)
Example rejected_then_accepted :
  let s' := snd (fst (send_batch sample_env [record1; record2]
                        (mkSession rejecting_world []))) in
  map entry_seen (inbox (world s')) = [false; true]
  /\ sent (world s') = [payload record2].
Proof. split; vm_compute; reflexivity. Qed.

(** C9 at a sample turn: an identifier that starts with ["ERROR"] leaves its
    record unflagged. *)
Lemma flagged_iff_no_error_prefix_witness :
  fst (messages_create sample_env (payload record1) odd_sid_world)
  = Ret (Some (tok "ERROR9"))
  /\ Py.startswith (tok "ERROR") (tok "ERROR9") = true
  /\ forall so,
       ~ In (Store (mail_id record1) so)
            (snd (send_one sample_env 1 1 record1 (mkSession odd_sid_world []))).
Proof.
  split; [reflexivity|]. split; [reflexivity|].
  apply (proj2 (proj2 (proj2 (proj2
           (flagged_iff_no_error_prefix sample_env 1 1 record1
              (mkSession odd_sid_world [])))))
           (tok "ERROR9")); reflexivity.
Defined.

(** C8 at a sample session: the operator answers [N] at the confirmation
    prompt. *)
Lemma cancel_sends_nothing_witness :
  stdin (mkSession rejecting_world [tok " N "; tok "y"]) = [tok " N "; tok "y"]
  /\ normalize (tok " N ") <> tok "y"
  /\ fst (confirming sample_env [record1; record2]
            (mkSession rejecting_world [tok " N "; tok "y"]))
     = (Ret tt, mkSession rejecting_world [tok "y"])
  /\ forall text o,
       ~ In (Create text o)
            (snd (confirming sample_env [record1; record2]
                    (mkSession rejecting_world [tok " N "; tok "y"]))).
Proof.
  split; [reflexivity|].
  assert (Hno : normalize (tok " N ") <> tok "y") by (vm_compute; discriminate).
  split; [exact Hno|].
  pose proof (cancel_sends_nothing sample_env [record1; record2]
                (mkSession rejecting_world [tok " N "; tok "y"])
                eq_refl Hno) as H.
  split; [exact (proj1 H) | exact (proj1 (proj2 (proj2 H)))].
Defined.


(** C10 at sample mailboxes: a refused search gives the empty list; a message
    that cannot be fetched is left out of the poll. *)
Lemma retrieval_failure_looks_empty_witness :
  (imap_select sample_env refusing_world = (Ret tt, refusing_world)
   /\ imap_search sample_env refusing_world
      = (Ret (tok "NO", Py.bytes_of_string "1"), refusing_world)
   /\ tok "NO" <> tok "OK"
   /\ fetch_unseen sample_env (mkSession refusing_world [])
      = (Ret [], mkSession refusing_world [], [Select; Search]))
  /\ (imap_fetch sample_env (Py.bytes_of_string "2") half_fetchable_world
      = (Ret (tok "NO", []), half_fetchable_world)
      /\ fetch_one sample_env (Py.bytes_of_string "2")
           (mkSession half_fetchable_world [])
         = (Ret None, mkSession half_fetchable_world [],
            [Fetch (Py.bytes_of_string "2")])).
Proof.
  assert (Hne : tok "NO" <> tok "OK") by (vm_compute; discriminate).
  split.
  - split; [reflexivity|]. split; [reflexivity|]. split; [exact Hne|].
    exact (proj1 (retrieval_failure_looks_empty sample_env
                    (mkSession refusing_world []))
             refusing_world (tok "NO") (Py.bytes_of_string "1") refusing_world
             eq_refl eq_refl Hne).
  - split; [reflexivity|].
    exact (proj1 (proj2 (proj2 (retrieval_failure_looks_empty sample_env
                                  (mkSession half_fetchable_world [])))
                    (Py.bytes_of_string "2") (tok "NO") []
                    half_fetchable_world [] [] eq_refl (or_introl Hne))).
Defined.

(** The poll over the half-fetchable mailbox returns the first record alone. *)
Example unfetchable_left_out :
  fst (fst (fetch_unseen sample_env (mkSession half_fetchable_world [])))
  = Ret [record1].
Proof. vm_compute; reflexivity. Qed.

(** In a multipart message the plain part wins over an earlier HTML part, and
    a plain attachment is passed over. *)
Example plain_before_html :
  get_body sample_env
    (Multipart (mkHeaders [] [] [] (tok "multipart/mixed") None None)
       [Leaf (mkHeaders [] [] [] (tok "text/plain")
                (Some (tok "attachment; filename=notes.txt")) None)
             (Py.bytes_of_string "notes");
        Leaf (mkHeaders [] [] [] (tok "text/html") None None)
             (Py.bytes_of_string "<p>hi</p>");
        Leaf (mkHeaders [] [] [] (tok "text/plain") None None)
             (Py.bytes_of_string "hi")])
  = Ret (tok "hi").
Proof. vm_compute; reflexivity. Qed.

(** A whole session: two unread messages, all of them selected, confirmed,
    and the operator leaves. *)
Example forward_all :
  let run := interactive_loop sample_env
               (mkSession (quiet_world [fetched "1" mail1; fetched "2" mail2])
                          [tok "3"; tok " Y "; tok "n"]) in
  fst (fst run) = Ret (Some tt)
  /\ map entry_seen (inbox (world (snd (fst run)))) = [true; true]
  /\ sent (world (snd (fst run))) = [payload record1; payload record2].
Proof. repeat split; vm_compute; reflexivity. Qed.

(** The two polls around a rejected option, on the growing mailbox: the first
    finds one record, the second two. *)
Example polls_around_rejection :
  let s0 := mkSession growing_world [tok "x"; tok "q"] in
  let s1 := snd (fst (fetch_unseen sample_env s0)) in
  let s2 := snd (fst (awaiting_choice sample_env [record1] s1)) in
  fst (fst (fetch_unseen sample_env s0)) = Ret [record1]
  /\ fst (fst (awaiting_choice sample_env [record1] s1)) = Ret Continue
  /\ fst (fst (fetch_unseen sample_env s2)) = Ret [record1; record2].
Proof. repeat split; vm_compute; reflexivity. Qed.

(** ** What a computation emits *)

Section Emits.

Context {W : Type} (P : Event -> Prop).

Lemma emits_ret A (a : A) : emits P (@ret W A a).
Proof. intros s. constructor. Qed.

Lemma emits_raise A (e : exn) : emits P (@raise W A e).
Proof. intros s. constructor. Qed.

Lemma emits_lift A (r : result A) : emits P (@lift A r W).
Proof. destruct r; [apply emits_ret | apply emits_raise]. Qed.

Lemma emits_print (c : Console) : P (Print c) -> emits P (@print W c).
Proof. intros H s. simpl. repeat constructor. exact H. Qed.

Lemma emits_input (p : Prompt) :
  (forall line, P (Input p line)) -> emits P (@input W p).
Proof.
  intros H s. unfold input. destruct (stdin s); simpl; repeat constructor.
  apply H.
Qed.

Lemma emits_call A (op : W -> result A * W) (ev : result A -> Event) :
  (forall r, P (ev r)) -> emits P (call op ev).
Proof.
  intros H s. unfold call. destruct (op (world s)); simpl.
  repeat constructor. apply H.
Qed.

Lemma emits_bind A B (m : M W A) (k : A -> M W B) :
  emits P m -> (forall a, emits P (k a)) -> emits P (bind m k).
Proof.
  intros Hm Hk s. rewrite bind_run. specialize (Hm s).
  destruct (m s) as [[[a|e] s1] t1]; simpl in *; [|exact Hm].
  specialize (Hk a s1). destruct (k a s1) as [[r s2] t2]; simpl in *.
  apply Forall_app. split; assumption.
Qed.

Lemma emits_try_except A (m : M W A) (h : exn -> option (M W A)) :
  emits P m -> (forall e k, h e = Some k -> emits P k) ->
  emits P (try_except m h).
Proof.
  intros Hm Hh s. unfold try_except. specialize (Hm s).
  destruct (m s) as [[[a|e] s1] t1]; simpl in *; [exact Hm|].
  destruct (h e) as [k|] eqn:E; [|exact Hm].
  specialize (Hh e k E s1). destruct (k s1) as [[r s2] t2]; simpl in *.
  apply Forall_app. split; assumption.
Qed.

Lemma emits_try_finally A (m : M W A) (c : M W unit) :
  emits P m -> emits P c -> emits P (try_finally m c).
Proof.
  intros Hm Hc s. unfold try_finally. specialize (Hm s).
  destruct (m s) as [[r s1] t1]; simpl in *.
  specialize (Hc s1). destruct (c s1) as [[[u|e] s2] t2]; simpl in *;
    apply Forall_app; split; assumption.
Qed.

End Emits.

Lemma emits_weaken W A (P Q : Event -> Prop) (m : M W A) :
  (forall ev, P ev -> Q ev) -> emits P m -> emits Q m.
Proof.
  intros H Hm s. eapply Forall_impl; [exact H | apply Hm].
Qed.

Ltac emit :=
  repeat lazymatch goal with
    | |- emits _ (bind _ _) => apply emits_bind; [|intros ?]
    | |- emits _ (ret _) => apply emits_ret
    | |- emits _ (raise _) => apply emits_raise
    | |- emits _ (lift _) => apply emits_lift
    | |- emits _ (print _) => apply emits_print; try exact I
    | |- emits _ (call _ _) => apply emits_call; intros ?; try exact I
    | |- emits _ (input _) => apply emits_input; intros ?; try exact I
    | |- emits _ (try_except _ _) => apply emits_try_except; [|intros ? ? ?]
    end.

(** ** Polling only reads *)

Section PollingReads.

Context {W : Type} (env : Env W).

Lemma fetch_one_polls (eid : Py.bytes) : emits is_poll (fetch_one env eid).
Proof.
  unfold fetch_one. emit. destruct a as [res data].
  destruct (negb (Py.eqb res (tok "OK"))); emit.
  destruct data as [|[[envl [msg|ex]|b]|] more]; emit.
Qed.

Lemma fetch_each_polls (ids : list Py.bytes) :
  forall results, emits is_poll (fetch_each env ids results).
Proof.
  induction ids as [|eid rest IH]; intros results; simpl; emit.
  - apply fetch_one_polls.
  - destruct a; apply IH.
Qed.

End PollingReads.

Lemma fetch_unseen_polls W (env : Env W) : emits is_poll (fetch_unseen env).
Proof.
  unfold fetch_unseen. emit. destruct a0 as [status m].
  destruct (negb (Py.eqb status (tok "OK"))); emit. apply fetch_each_polls.
Qed.

Lemma polls_send_nothing (t : list Event) :
  Forall is_poll t -> sent_texts t = [] /\ stored_ids t = [].
Proof.
  intros H. induction H as [|ev t Hev _ [IH1 IH2]]; [split; reflexivity|].
  destruct ev; try contradiction; split; assumption.
Qed.

(** X1.  A poll only reads: whatever the server answers and whether or not
    the poll ends well, [fetch_unseen] calls nothing but [imap.select],
    [imap.search] and [imap.fetch]; it sends nothing, flags nothing and
    writes nothing to the console. *)
Theorem fetch_unseen_only_reads W (env : Env W) (s : Session W) :
  Forall is_poll (snd (fetch_unseen env s))
  /\ sent_texts (snd (fetch_unseen env s)) = []
  /\ stored_ids (snd (fetch_unseen env s)) = [].
Proof.
  pose proof (fetch_unseen_polls env s) as H.
  split; [exact H | now apply polls_send_nothing].
Qed.

(** ** The order of a poll *)

Section PollOrder.

Context {W : Type} (env : Env W).

Lemma subseq_refl A (l : list A) : subseq l l.
Proof. induction l; constructor; assumption. Qed.

Lemma subseq_nil_l A (l : list A) : subseq [] l.
Proof. induction l; constructor; assumption. Qed.

Lemma fetch_one_shape (eid : Py.bytes) (s : Session W) :
  exists r s', fetch_one env eid s = (r, s', [Fetch eid])
               /\ forall rec, r = Ret (Some rec) -> mail_id rec = eid.
Proof.
  unfold fetch_one. rewrite bind_run. unfold call.
  destruct (imap_fetch env eid (world s)) as [[[res data]|ex] w1];
    cbv iota beta; [|do 2 eexists; split; [reflexivity | discriminate]].
  destruct (negb (Py.eqb res (tok "OK")));
    [do 2 eexists; split; [reflexivity | discriminate]|].
  destruct data as [|[[envl [msg|ex]|b]|] more];
    try (do 2 eexists; split; [reflexivity | discriminate]).
  rewrite bind_run. unfold lift.
  destruct (build_record env eid msg) as [rec|ex] eqn:E; simpl.
  - do 2 eexists; split; [reflexivity|].
    intros rec' H; injection H as <-.
    exact (proj2 (build_record_preview _ _ _ E)).
  - do 2 eexists; split; [reflexivity | discriminate].
Qed.

Lemma fetch_each_order (ids : list Py.bytes) :
  forall results s r s' t,
    fetch_each env ids results s = (r, s', t) ->
    (exists k, fetched_ids t = firstn k ids)
    /\ match r with
       | Ret rs =>
           fetched_ids t = ids
           /\ exists new, rs = results ++ new /\ subseq (map mail_id new) ids
       | Raise _ => True
       end.
Proof.
  induction ids as [|eid rest IH]; intros results s r s' t E.
  - simpl in E. injection E as <- <- <-. split; [exists 0; reflexivity|].
    split; [reflexivity|]. exists []. rewrite app_nil_r.
    split; [reflexivity | constructor].
  - simpl fetch_each in E. rewrite bind_run in E.
    destruct (fetch_one_shape eid s) as (r1 & s1 & E1 & Hid). rewrite E1 in E.
    destruct r1 as [[rec|]|ex].
    + destruct (fetch_each env rest (results ++ [rec]) s1) as [[r2 s2] t2] eqn:E2.
      injection E as <- <- <-. apply IH in E2. destruct E2 as [[k Hk] Hr].
      split; [exists (S k); simpl; now rewrite Hk|].
      destruct r2 as [rs|]; [|exact I].
      destruct Hr as (Hall & new & -> & Hsub).
      split; [simpl; now rewrite Hall|].
      exists (rec :: new). rewrite <- app_assoc. split; [reflexivity|].
      simpl. rewrite (Hid rec eq_refl). now constructor.
    + destruct (fetch_each env rest results s1) as [[r2 s2] t2] eqn:E2.
      injection E as <- <- <-. apply IH in E2. destruct E2 as [[k Hk] Hr].
      split; [exists (S k); simpl; now rewrite Hk|].
      destruct r2 as [rs|]; [|exact I].
      destruct Hr as (Hall & new & -> & Hsub).
      split; [simpl; now rewrite Hall|].
      exists new. split; [reflexivity | now constructor].
    + injection E as <- <- <-. split; [exists 1; reflexivity | exact I].
Qed.

End PollOrder.

(** X2.  After an accepted search the poll fetches the listed ids one by one
    in the listed order, one fetch per listed id, and stops only where a
    fetch or a decoding raises; when the poll ends well every listed id was fetched and
    the records come back in that order, each under the id it was fetched
    with. *)
Theorem fetch_unseen_in_listed_order W (env : Env W) (s : Session W)
    w1 m w2 r s' t :
  imap_select env (world s) = (Ret tt, w1) ->
  imap_search env w1 = (Ret (tok "OK", m), w2) ->
  fetch_unseen env s = (r, s', t) ->
  (exists k, fetched_ids t = firstn k (bytes_split m))
  /\ match r with
     | Ret rs =>
         fetched_ids t = bytes_split m
         /\ subseq (map mail_id rs) (bytes_split m)
     | Raise _ => True
     end.
Proof.
  intros Hsel Hsea E.
  rewrite (fetch_unseen_run _ _ Hsel Hsea) in E. simpl negb in E. cbv iota in E.
  destruct (fetch_each env (bytes_split m) [] _) as [[r2 s2] t2] eqn:E2.
  injection E as <- <- <-. apply fetch_each_order in E2.
  destruct E2 as [Hk Hr]. split; [exact Hk|].
  destruct r2 as [rs|]; [|exact I].
  destruct Hr as (Hall & new & -> & Hsub). split; assumption.
Qed.

Lemma fetch_unseen_in_listed_order_witness :
  imap_select sample_env half_fetchable_world = (Ret tt, half_fetchable_world)
  /\ imap_search sample_env half_fetchable_world
     = (Ret (tok "OK", Py.bytes_of_string "1 2"), half_fetchable_world)
  /\ fetched_ids (snd (fetch_unseen sample_env (mkSession half_fetchable_world [])))
     = [Py.bytes_of_string "1"; Py.bytes_of_string "2"]
  /\ subseq [Py.bytes_of_string "1"]
            [Py.bytes_of_string "1"; Py.bytes_of_string "2"].
Proof.
  split; [reflexivity|]. split; [reflexivity|].
  pose proof (fetch_unseen_in_listed_order sample_env
                (mkSession half_fetchable_world [])
                (w1 := half_fetchable_world) (m := Py.bytes_of_string "1 2")
                (w2 := half_fetchable_world)
                (r := Ret [record1])
                (s' := mkSession half_fetchable_world [])
                (t := [Select; Search; Fetch (Py.bytes_of_string "1");
                       Fetch (Py.bytes_of_string "2")])
                eq_refl eq_refl eq_refl) as H.
  exact (proj2 H).
Defined.

(** ** Headers *)

Lemma decode_parts_result W (env : Env W) (parts : list (Chunk * option Py.str)) :
  forall decoded,
  decode_parts env parts decoded
  = match first_failure env parts with
    | Some e => Raise e
    | None => Ret (decoded ++ concat (map (chunk_text env) parts))
    end.
Proof.
  induction parts as [|[[b|x] enc] rest IH]; intros decoded; simpl.
  - now rewrite app_nil_r.
  - unfold chunk_text at 1. simpl chunk_result.
    destruct (bytes_decode env (or_utf8 enc) b) as [text|e]; [|reflexivity].
    rewrite IH. destruct (first_failure env rest); [reflexivity|].
    now rewrite app_assoc.
  - unfold chunk_text at 1. simpl chunk_result.
    rewrite IH. destruct (first_failure env rest); [reflexivity|].
    now rewrite app_assoc.
Qed.


(** ** Bodies that decode *)

Lemma leaf_decodes W (env : Env W) (h : Headers) (b : Py.bytes) :
  charset_decodes env (Leaf h b) ->
  exists body, decode_payload env (Leaf h b) = Ret body.
Proof.
  intros (dec & Hdec & Htot). unfold decode_payload, bytes_decode.
  simpl get_payload_decoded. rewrite Hdec. apply Htot.
Qed.

Lemma candidate_decodes W (env : Env W) (msg part : Message) :
  (forall p, In p (walk msg) -> charset_decodes env p) ->
  containers_not_text msg ->
  In part (walk msg) ->
  plain_candidate part = true \/ html_candidate part = true ->
  exists body, decode_payload env part = Ret body.
Proof.
  intros Hk Hc Hin Hcand. specialize (Hk part Hin).
  destruct part as [h b|h ps].
  - now apply leaf_decodes.
  - destruct (Hc _ Hin eq_refl) as [H1 H2].
    destruct Hcand as [H|H]; congruence.
Qed.

Lemma get_body_decodes W (env : Env W) (msg : Message) :
  (forall part, In part (walk msg) -> charset_decodes env part) ->
  containers_not_text msg ->
  exists body, get_body env msg = Ret body.
Proof.
  intros Hk Hc. unfold get_body.
  destruct (is_multipart msg) eqn:Hm.
  - rewrite scan_plain_find, scan_html_find.
    destruct (find plain_candidate (walk msg)) as [p|] eqn:Ep; simpl.
    + apply find_some in Ep. destruct Ep as [Hin Hp].
      exact (@candidate_decodes W env msg p Hk Hc Hin (or_introl Hp)).
    + destruct (find html_candidate (walk msg)) as [p|] eqn:Eh; simpl.
      * apply find_some in Eh. destruct Eh as [Hin Hp].
        exact (@candidate_decodes W env msg p Hk Hc Hin (or_intror Hp)).
      * eexists; reflexivity.
  - destruct msg as [h b|h ps]; [|discriminate].
    apply leaf_decodes. apply Hk. left. reflexivity.
Qed.

(** X4.  When every part of a message names a charset, or by default UTF-8,
    whose codec decodes every input under [errors="ignore"], and no
    multipart container is typed as text, [get_body] returns a string and
    raises nothing. *)
Theorem get_body_returns W (env : Env W) (msg : Message) :
  (forall part, In part (walk msg) -> charset_decodes env part) ->
  containers_not_text msg ->
  exists body, get_body env msg = Ret body.
Proof. apply get_body_decodes. Qed.

Lemma sample_utf8_accepts : codec_accepts sample_env (tok "utf-8").
Proof.
  eexists. split; [reflexivity|]. intros b. eexists. reflexivity.
Qed.

Lemma get_body_returns_witness :
  (forall part, In part (walk mail1) -> charset_decodes sample_env part)
  /\ containers_not_text mail1
  /\ exists body, get_body sample_env mail1 = Ret body.
Proof.
  assert (Hk : forall part, In part (walk mail1) -> charset_decodes sample_env part).
  { intros part [<-|[]]. exact sample_utf8_accepts. }
  assert (Hc : containers_not_text mail1).
  { intros part [<-|[]] Hm. discriminate Hm. }
  split; [exact Hk|]. split; [exact Hc|].
  exact (@get_body_returns World sample_env mail1 Hk Hc).
Defined.

(** ** More on selection *)

Lemma last_n_of_last_n A (j k : nat) (l : list A) :
  j <= k -> Py.last_n j (Py.last_n k l) = Py.last_n j l.
Proof.
  intros Hjk. unfold Py.last_n. rewrite length_skipn, skipn_skipn.
  f_equal. lia.
Qed.

Lemma select_suffix A (emails : list A) (c : Choice) :
  exists front, emails = front ++ select emails c.
Proof.
  unfold select. destruct emails as [|e es]; [exists []; now destruct c|].
  change (1 <=? length (e :: es)) with true.
  destruct c; try apply last_n_suffix. exists []. reflexivity.
Qed.

(** X5.  The three selections nest: the last record is the end of the last
    three, which are the end of the whole list; every selection keeps the
    order of the unread list, and on a list that is not empty no selection
    is empty. *)
Theorem selections_nest A (emails : list A) :
  (exists front, select emails LAST_THREE = front ++ select emails LAST_ONE)
  /\ (forall c, exists front, emails = front ++ select emails c)
  /\ (forall c, emails <> [] -> select emails c <> []).
Proof.
  split; [|split].
  - unfold select. destruct emails as [|e es]; [exists []; reflexivity|].
    change (1 <=? length (e :: es)) with true. cbv iota.
    rewrite <- (last_n_of_last_n (j := 1) (k := 3) (e :: es)) by lia.
    apply last_n_suffix.
  - intros c. apply select_suffix.
  - intros c Hne Hsel. apply (f_equal (@length A)) in Hsel.
    destruct emails as [|e es]; [congruence|].
    unfold select in Hsel. change (1 <=? length (e :: es)) with true in Hsel.
    destruct c; cbv iota in Hsel; rewrite ?last_n_length in Hsel;
      simpl in Hsel; lia.
Qed.

Lemma selections_nest_witness :
  [record1; record2] <> []
  /\ select [record1; record2] LAST_ONE <> [].
Proof.
  assert (H : [record1; record2] <> []) by discriminate.
  split; [exact H|].
  exact (proj2 (proj2 (selections_nest [record1; record2])) LAST_ONE H).
Defined.

(** ** The text that is sent *)

(** X6.  The text sent for a record is the three header lines in full and
    then the body cut after 1000 characters: its length is 29 plus the
    lengths of sender, subject and date plus at most 1000, and what lies
    beyond the 1000th character of the body has no effect on it. *)
Theorem payload_cut (e : MailRecord) :
  length (payload e)
  = 29 + length (mail_from e) + length (mail_subject e) + length (mail_date e)
    + Nat.min 1000 (length (mail_body e))
  /\ payload (with_body_cut 1000 e) = payload e
  /\ exists header, payload e = header ++ firstn 1000 (mail_body e)
                    /\ forall body,
                         payload (mkMail (mail_id e) (mail_subject e)
                                    (mail_from e) (mail_date e) body
                                    (mail_preview e))
                         = header ++ firstn 1000 body.
Proof.
  split; [|split].
  - unfold payload, Py.take. rewrite !length_app, length_firstn.
    simpl length. lia.
  - unfold payload, with_body_cut.
    cbn [mail_body mail_from mail_subject mail_date]. unfold Py.take.
    now rewrite firstn_firstn, Nat.min_id.
  - eexists. split; [reflexivity|]. intros body. reflexivity.
Qed.

(** ** What a pass sends and flags *)

Section PassCalls.

Context {W : Type} (env : Env W).

Lemma sent_texts_app (t1 t2 : list Event) :
  sent_texts (t1 ++ t2) = sent_texts t1 ++ sent_texts t2.
Proof. apply flat_map_app. Qed.

Lemma stored_ids_app (t1 t2 : list Event) :
  stored_ids (t1 ++ t2) = stored_ids t1 ++ stored_ids t2.
Proof. apply flat_map_app. Qed.

Lemma send_one_calls (i total : nat) (e : MailRecord) (s : Session W) :
  sent_texts (snd (send_one env i total e s)) = [payload e]
  /\ (stored_ids (snd (send_one env i total e s)) = [mail_id e]
      \/ stored_ids (snd (send_one env i total e s)) = [])
  /\ (forall eid ex,
        In (Store eid (Raise ex)) (snd (send_one env i total e s)) ->
        In (Print (MarkWarning ex)) (snd (send_one env i total e s))).
Proof.
  pose proof (send_one_run env i total e s) as R. cbv zeta in R.
  destruct (handed_back (fst (messages_create env (payload e) (world s))))
    as [r|ex].
  - destruct (delivered r); rewrite R; cbn [snd].
    + destruct (fst (imap_store env (mail_id e) _)) as [u|ex].
      * split; [reflexivity|]. split; [left; reflexivity|].
        intros eid ex' H. simpl in H.
        destruct H as [H|[H|[H|[H|[]]]]]; discriminate.
      * split; [reflexivity|]. split; [left; reflexivity|].
        intros eid ex' H. simpl in H.
        destruct H as [H|[H|[H|[H|[H|[]]]]]]; try discriminate.
        injection H as _ <-. simpl. tauto.
    + split; [reflexivity|]. split; [right; reflexivity|].
      intros eid ex' H. simpl in H.
      destruct H as [H|[H|[H|[H|[]]]]]; discriminate.
  - rewrite R; cbn [snd]. split; [reflexivity|]. split; [right; reflexivity|].
    intros eid ex' H. simpl in H. destruct H as [H|[H|[]]]; discriminate.
Qed.

Lemma send_each_calls (emails : list MailRecord) :
  forall i total s,
  exists k,
    k <= length emails
    /\ sent_texts (snd (send_each env i total emails s))
       = map payload (firstn k emails)
    /\ subseq (stored_ids (snd (send_each env i total emails s)))
              (map mail_id (firstn k emails))
    /\ (fst (fst (send_each env i total emails s)) = Ret tt ->
        k = length emails)
    /\ (forall eid ex,
          In (Store eid (Raise ex)) (snd (send_each env i total emails s)) ->
          In (Print (MarkWarning ex)) (snd (send_each env i total emails s))).
Proof.
  induction emails as [|e es IH]; intros i total s.
  - exists 0. simpl. repeat split; try constructor. intros ? ? [].
  - simpl send_each. rewrite bind_run.
    destruct (send_one_calls i total e s) as (Hs & Hst & Hw).
    destruct (send_one env i total e s) as [[[u|ex] s1] t1]; cbn [snd] in *.
    + destruct (IH (S i) total s1) as (k & Hk & Hs2 & Hst2 & Hr & Hw2).
      destruct (send_each env (S i) total es s1) as [[r2 s2] t2];
        cbn [fst snd] in *.
      exists (S k). split; [simpl; lia|].
      rewrite sent_texts_app, stored_ids_app, Hs, Hs2.
      split; [reflexivity|]. split; [|split].
      * simpl firstn. simpl map.
        destruct Hst as [-> | ->]; simpl; now constructor.
      * intros Hret. simpl. f_equal. now apply Hr.
      * intros eid ex Hin. apply in_app_or in Hin. apply in_or_app.
        destruct Hin as [Hin|Hin]; [left; now apply Hw with eid
                                   | right; now apply Hw2 with eid].
    + exists 1. split; [simpl; lia|]. rewrite Hs.
      split; [reflexivity|]. split; [|split].
      * simpl. destruct Hst as [-> | ->]; now repeat constructor.
      * discriminate.
      * exact Hw.
Qed.

End PassCalls.

(** X7.  Whatever the gateway and the mailbox answer, a pass sends the texts
    of the first [k] selected records, one send per record in the order of
    the selection and nothing else; it flags only records among those, in
    that order and each at most once; and [k] is the whole selection when
    the pass ends without an exception. *)
Theorem send_batch_calls W (env : Env W) (emails : list MailRecord)
    (s : Session W) :
  exists k,
    k <= length emails
    /\ sent_texts (snd (send_batch env emails s)) = map payload (firstn k emails)
    /\ subseq (stored_ids (snd (send_batch env emails s)))
              (map mail_id (firstn k emails))
    /\ (fst (fst (send_batch env emails s)) = Ret tt -> k = length emails).
Proof.
  destruct emails as [|e es].
  - exists 0. simpl. repeat split; constructor.
  - unfold send_batch.
    destruct (send_each_calls env (e :: es) 1 (length (e :: es)) s)
      as (k & H1 & H2 & H3 & H4 & _).
    exists k. repeat split; assumption.
Qed.

(** X8.  When [imap.store] raises for a record, the pass writes a warning
    line carrying that exception. *)
Theorem store_failure_is_warned W (env : Env W) (emails : list MailRecord)
    (s : Session W) (eid : Py.bytes) (ex : exn) :
  In (Store eid (Raise ex)) (snd (send_batch env emails s)) ->
  In (Print (MarkWarning ex)) (snd (send_batch env emails s)).
Proof.
  destruct emails as [|e es].
  - simpl. intros [H|[]]. discriminate.
  - unfold send_batch.
    destruct (send_each_calls env (e :: es) 1 (length (e :: es)) s)
      as (k & _ & _ & _ & _ & Hw).
    apply Hw.
Qed.

Lemma store_failure_is_warned_witness :
  In (Store (Py.bytes_of_string "1")
        (Raise (OtherError (tok "imaplib.IMAP4.readonly"))))
     (snd (send_batch sample_env [record1] (mkSession read_only_world [])))
  /\ In (Print (MarkWarning (OtherError (tok "imaplib.IMAP4.readonly"))))
        (snd (send_batch sample_env [record1] (mkSession read_only_world []))).
Proof.
  assert (H : In (Store (Py.bytes_of_string "1")
                    (Raise (OtherError (tok "imaplib.IMAP4.readonly"))))
                 (snd (send_batch sample_env [record1]
                         (mkSession read_only_world [])))).
  { vm_compute. tauto. }
  split; [exact H|].
  exact (@store_failure_is_warned World sample_env [record1]
           (mkSession read_only_world []) _ _ H).
Defined.

(** ** What is shown after a poll *)

Lemma skipn_combine A B (k : nat) :
  forall (a : list A) (b : list B),
  skipn k (combine a b) = combine (skipn k a) (skipn k b).
Proof.
  induction k as [|k IH]; intros a b; [reflexivity|].
  destruct a as [|x a]; [now rewrite skipn_nil|].
  destruct b as [|y b]; [simpl; now rewrite combine_nil|].
  simpl. apply IH.
Qed.

Lemma numbered_position (l : list MailRecord) :
  forall a i e,
  In (i, e) (combine (seq a (length l)) l) ->
  a <= i /\ nth_error l (i - a) = Some e.
Proof.
  induction l as [|x l IH]; intros a i e Hin; [destruct Hin|].
  simpl in Hin. destruct Hin as [H|H].
  - injection H as <- <-. split; [lia|]. now rewrite Nat.sub_diag.
  - apply IH in H. destruct H as [Hle Hnth]. split; [lia|].
    replace (i - a) with (S (i - S a)) by lia. exact Hnth.
Qed.

Lemma list_each_run W (emails : list MailRecord) :
  forall idx (s : Session W),
  list_each idx emails s
  = (Ret tt, s, flat_map shown_lines (combine (seq idx (length emails)) emails)).
Proof.
  induction emails as [|e es IH]; intros idx s; [reflexivity|].
  simpl list_each. rewrite bind_run, print_run, bind_run, print_run, IH.
  reflexivity.
Qed.

Lemma last_ten_numbered (emails : list MailRecord) :
  emails <> [] ->
  combine (seq (Nat.max 1 (length emails - 9)) (length (Py.last_n 10 emails)))
          (Py.last_n 10 emails)
  = Py.last_n 10 (numbered emails).
Proof.
  intros Hne. unfold numbered, Py.last_n at 3.
  rewrite length_combine, length_seq, Nat.min_id, skipn_combine, skipn_seq.
  rewrite last_n_length. unfold Py.last_n.
  assert (0 < length emails) by (destruct emails; [congruence | simpl; lia]).
  f_equal. f_equal; lia.
Qed.

Lemma presenting_run W (emails : list MailRecord) (s : Session W) :
  presenting emails s
  = (Ret tt, s,
     Print (Found (length emails))
     :: match emails with
        | [] => [Print NoUnreadNow]
        | _ => flat_map shown_lines (Py.last_n 10 (numbered emails))
               ++ [Print OptionsHeader; Print OptionLast1;
                   Print OptionLast3; Print OptionAll]
        end
     ++ [Print OptionRefresh; Print OptionQuit]).
Proof.
  unfold presenting. rewrite bind_run, print_run, bind_run.
  destruct emails as [|e es]; [reflexivity|].
  change (0 <? length (e :: es)) with true. cbv iota.
  rewrite bind_run, list_each_run.
  rewrite last_ten_numbered by discriminate. reflexivity.
Qed.

(** X9.  After a poll the console shows the number of records found and, for
    the last ten records at most, a line pair each in the order of the list;
    the index printed beside a record is its 1-based position in the whole
    unread list; the menu of selections is shown only when there is a
    record; nothing is read and the world is not touched. *)
Theorem presenting_shows_positions W (emails : list MailRecord) (s : Session W) :
  presenting emails s
  = (Ret tt, s,
     Print (Found (length emails))
     :: match emails with
        | [] => [Print NoUnreadNow]
        | _ => flat_map shown_lines (Py.last_n 10 (numbered emails))
               ++ [Print OptionsHeader; Print OptionLast1;
                   Print OptionLast3; Print OptionAll]
        end
     ++ [Print OptionRefresh; Print OptionQuit])
  /\ length (Py.last_n 10 (numbered emails)) = Nat.min 10 (length emails)
  /\ forall i e, In (i, e) (Py.last_n 10 (numbered emails)) ->
                 1 <= i /\ nth_error emails (i - 1) = Some e.
Proof.
  split; [|split].
  - apply presenting_run.
  - rewrite last_n_length. unfold numbered.
    rewrite length_combine, length_seq. lia.
  - intros i e Hin. apply (numbered_position emails 1).
    destruct (last_n_suffix 10 (numbered emails)) as [front Hf].
    unfold numbered in Hf at 1. rewrite Hf. apply in_or_app. now right.
Qed.

(** ** Nothing leaves without a selection and a yes *)

Section Turn.

Context {W : Type} (env : Env W).

Lemma console_forall (t : list Event) :
  Forall console_event t <-> forallb is_console t = true.
Proof.
  rewrite Forall_forall, forallb_forall. reflexivity.
Qed.

Lemma continue_prompt_console : emits console_event (@continue_prompt W).
Proof.
  unfold continue_prompt, read_token. emit; try reflexivity.
  destruct (negb (Py.eqb a (tok "y"))); emit; reflexivity.
Qed.

Lemma show_selected_console (selected : list MailRecord) :
  forall i, emits console_event (@show_selected W i selected).
Proof.
  induction selected as [|e es IH]; intros i; simpl; emit;
    [reflexivity | apply IH].
Qed.

Lemma presenting_console (emails : list MailRecord) :
  emits console_event (@presenting W emails).
Proof.
  intros s. rewrite presenting_run.
  cbn [snd]. apply console_forall. simpl.
  destruct emails; [reflexivity|].
  rewrite forallb_app. rewrite andb_true_iff. split; [|reflexivity].
  rewrite forallb_app. rewrite andb_true_iff. split; [|reflexivity].
  apply forallb_forall. intros ev Hin. apply in_flat_map in Hin.
  destruct Hin as (p & _ & [<-|[<-|[]]]); reflexivity.
Qed.

(** The confirmation step stays on the console unless the line read is a
    yes. *)
Lemma confirming_console (selected : list MailRecord) (s : Session W) :
  match stdin s with
  | [] => True
  | line :: _ => Py.eqb (normalize line) (tok "y") = false
  end ->
  Forall console_event (snd (confirming env selected s)).
Proof.
  intros Hline. unfold confirming. rewrite bind_run, print_run, bind_run.
  pose proof (show_selected_console selected 1 s) as C.
  destruct (show_selected_run env selected 1 s) as (t & E & _).
  rewrite E in *. cbn [snd] in C. rewrite bind_run.
  destruct (stdin s) as [|line rest] eqn:Es.
  - unfold read_token, input. rewrite bind_run, Es. cbn [snd].
    constructor; [reflexivity|]. now rewrite app_nil_r.
  - rewrite (read_token_run _ _ Es), Hline, print_run. cbn [snd].
    constructor; [reflexivity|]. apply Forall_app. split; [exact C|].
    repeat constructor.
Qed.

Lemma send_each_within (emails selected : list MailRecord) :
  incl selected emails ->
  forall i total, emits (within emails) (send_each env i total selected).
Proof.
  induction selected as [|e es IH]; intros Hincl i total; simpl; emit.
  - unfold send_one, send_whatsapp, mark_seen.
    assert (He : In e emails) by (apply Hincl; now left).
    emit.
    + simpl. now apply in_map.
    + destruct e0; try discriminate. injection H as <-. emit.
    + destruct (delivered a0); emit.
      * simpl. now apply in_map.
      * injection H as <-. emit.
  - apply IH. intros x Hx. apply Hincl. now right.
Qed.

Lemma send_batch_within (emails selected : list MailRecord) :
  incl selected emails -> emits (within emails) (send_batch env selected).
Proof.
  intros Hincl. unfold send_batch.
  destruct selected; [emit | now apply send_each_within].
Qed.

Lemma select_incl A (emails : list A) (c : Choice) : incl (select emails c) emails.
Proof.
  destruct (select_suffix emails c) as [front Hf].
  intros x Hx. rewrite Hf. apply in_or_app. now right.
Qed.

Lemma awaiting_choice_within (emails : list MailRecord) :
  emits (within emails) (awaiting_choice env emails).
Proof.
  unfold awaiting_choice, read_token. emit.
  destruct (Py.eqb a (tok "q")); emit.
  destruct (Py.eqb a (tok "r")); emit.
  destruct (length emails =? 0); emit.
  destruct (parse_choice a) as [c|]; emit.
  - unfold confirming, read_token. emit.
    + apply emits_weaken with (P := console_event);
        [|apply show_selected_console].
      intros [] H; try discriminate H; exact I.
    + destruct (Py.eqb a2 (tok "y")); emit.
      apply send_batch_within, select_incl.
  - apply emits_weaken with (P := console_event);
      [|apply continue_prompt_console].
    intros [] H; try discriminate H; exact I.
Qed.

End Turn.

(** X10.  A turn leaves the console only through a confirmed selection: if,
    from the option prompt on, the turn makes any call to the gateway or the
    mailbox, then the unread list was not empty, the first line read was one
    of [1], [2], [3] and the second line read was [y] (both after trimming
    and lowering). *)
Theorem dispatch_needs_confirmation W (env : Env W) (emails : list MailRecord)
    (s : Session W) :
  forallb is_console (snd (awaiting_choice env emails s)) = false ->
  exists l1 l2 rest c,
    stdin s = l1 :: l2 :: rest
    /\ parse_choice (normalize l1) = Some c
    /\ normalize l2 = tok "y"
    /\ emails <> [].
Proof.
  intros Hcalls.
  assert (Hno : ~ Forall console_event (snd (awaiting_choice env emails s))).
  { rewrite console_forall, Hcalls. discriminate. }
  destruct (stdin s) as [|l1 r1] eqn:E1.
  { exfalso. apply Hno. unfold awaiting_choice, read_token, input.
    rewrite !bind_run, E1. constructor. }
  unfold awaiting_choice in Hno.
  rewrite bind_run, (read_token_run _ _ E1) in Hno.
  destruct (Py.eqb (normalize l1) (tok "q"));
    [exfalso; apply Hno; repeat constructor|].
  destruct (Py.eqb (normalize l1) (tok "r"));
    [exfalso; apply Hno; repeat constructor|].
  destruct (length emails =? 0) eqn:En;
    [exfalso; apply Hno; repeat constructor|].
  destruct (parse_choice (normalize l1)) as [c|] eqn:Ec;
    [|exfalso; apply Hno; repeat constructor].
  destruct r1 as [|l2 r2].
  { exfalso. apply Hno. rewrite bind_run.
    pose proof (@confirming_console W env (select emails c)
                  (mkSession (world s) []) I) as C.
    destruct (confirming env (select emails c) (mkSession (world s) []))
      as [[[u|ex] s2] t2]; cbn [snd] in *.
    - pose proof (@continue_prompt_console W s2) as C2.
      destruct (continue_prompt s2) as [[r3 s3] t3]; cbn [snd] in *.
      constructor; [reflexivity|]. apply Forall_app. now split.
    - constructor; [reflexivity | exact C]. }
  destruct (Py.eqb (normalize l2) (tok "y")) eqn:Ey.
  - exists l1, l2, r2, c. repeat split; try assumption.
    + now apply eqb_eq.
    + intros ->. discriminate En.
  - exfalso. apply Hno. rewrite bind_run.
    pose proof (@confirming_console W env (select emails c)
                  (mkSession (world s) (l2 :: r2)) Ey) as C.
    destruct (confirming env (select emails c) (mkSession (world s) (l2 :: r2)))
      as [[[u|ex] s2] t2]; cbn [snd] in *.
    + pose proof (@continue_prompt_console W s2) as C2.
      destruct (continue_prompt s2) as [[r3 s3] t3]; cbn [snd] in *.
      constructor; [reflexivity|]. apply Forall_app. now split.
    + constructor; [reflexivity | exact C].
Qed.

Lemma dispatch_needs_confirmation_witness :
  forallb is_console
    (snd (awaiting_choice sample_env [record1; record2]
            (mkSession rejecting_world [tok "3"; tok " Y "; tok "n"])))
  = false
  /\ exists l1 l2 rest c,
       [tok "3"; tok " Y "; tok "n"] = l1 :: l2 :: rest
       /\ parse_choice (normalize l1) = Some c
       /\ normalize l2 = tok "y"
       /\ [record1; record2] <> [].
Proof.
  assert (H : forallb is_console
                (snd (awaiting_choice sample_env [record1; record2]
                        (mkSession rejecting_world
                           [tok "3"; tok " Y "; tok "n"])))
              = false) by (vm_compute; reflexivity).
  split; [exact H|].
  exact (@dispatch_needs_confirmation World sample_env [record1; record2]
           (mkSession rejecting_world [tok "3"; tok " Y "; tok "n"]) H).
Defined.

(** X11.  Whatever a turn sends or flags was fetched in that same turn:
    every text handed to the gateway is the text of a record of the poll the
    turn started with, and every id handed to [imap.store] is the id of such
    a record; a turn whose poll raised or found nothing sends and flags
    nothing. *)
Theorem turn_sends_only_polled W (env : Env W) (s : Session W) :
  (forall text o, In (Create text o) (snd (iteration env s)) ->
                  In text (map payload (polled env s)))
  /\ (forall eid so, In (Store eid so) (snd (iteration env s)) ->
                     In eid (map mail_id (polled env s))).
Proof.
  assert (H : Forall (fun ev => is_poll ev \/ within (polled env s) ev)
                     (snd (iteration env s))).
  { unfold iteration, polled. rewrite bind_run, print_run, bind_run.
    pose proof (fetch_unseen_polls env s) as Hf.
    destruct (fetch_unseen env s) as [[[emails|ex] s1] t1]; cbn [fst snd] in *.
    - rewrite bind_run.
      pose proof (@presenting_console W emails s1) as Cp.
      destruct (presenting emails s1) as [[[u|ex] s2] t2]; cbn [snd] in *.
      + pose proof (awaiting_choice_within env emails s2) as Ca.
        destruct (awaiting_choice env emails s2) as [[r3 s3] t3];
          cbn [snd] in *.
        constructor; [right; exact I|].
        apply Forall_app. split;
          [eapply Forall_impl; [|exact Hf]; intros; now left|].
        apply Forall_app. split.
        * eapply Forall_impl; [|exact Cp].
          intros [] Hc; try discriminate Hc; right; exact I.
        * eapply Forall_impl; [|exact Ca]. intros; now right.
      + constructor; [right; exact I|].
        apply Forall_app. split;
          [eapply Forall_impl; [|exact Hf]; intros; now left|].
        eapply Forall_impl; [|exact Cp].
        intros [] Hc; try discriminate Hc; right; exact I.
    - constructor; [right; exact I|].
      eapply Forall_impl; [|exact Hf]. intros; now left. }
  rewrite Forall_forall in H.
  split.
  - intros text o Hin. destruct (H _ Hin) as [[]|Hw]. exact Hw.
  - intros eid so Hin. destruct (H _ Hin) as [[]|Hw]. exact Hw.
Qed.

(** ** Operator tokens *)

Lemma lstrip_blank (pad x : Py.str) :
  blank pad -> Py.lstrip (pad ++ x) = Py.lstrip x.
Proof.
  intros H. induction H as [|c pad Hc _ IH]; [reflexivity|].
  simpl. now rewrite Hc.
Qed.

Lemma lstrip_app (a b : Py.str) :
  Py.lstrip (a ++ b)
  = match Py.lstrip a with
    | [] => Py.lstrip b
    | _ => Py.lstrip a ++ b
    end.
Proof.
  induction a as [|c a IH]; simpl.
  - now destruct (Py.lstrip b).
  - destruct (Py.isspace c); [exact IH | reflexivity].
Qed.

Lemma rstrip_blank (x pad : Py.str) :
  blank pad -> Py.rstrip (x ++ pad) = Py.rstrip x.
Proof.
  intros H. unfold Py.rstrip. rewrite rev_app_distr, lstrip_blank;
    [reflexivity|].
  unfold blank. now apply Forall_rev.
Qed.

Lemma lstrip_blank_all (pad : Py.str) : blank pad -> Py.lstrip pad = [].
Proof.
  intros H. rewrite <- (app_nil_r pad). now rewrite lstrip_blank.
Qed.

Lemma strip_blank (pad1 pad2 s : Py.str) :
  blank pad1 -> blank pad2 -> Py.strip (pad1 ++ s ++ pad2) = Py.strip s.
Proof.
  intros H1 H2. unfold Py.strip. rewrite lstrip_blank by exact H1.
  rewrite lstrip_app. destruct (Py.lstrip s) as [|c r] eqn:E.
  - now rewrite (lstrip_blank_all H2).
  - now rewrite rstrip_blank.
Qed.

Lemma lower_keeps_space (c : N) : Py.isspace (Py.lower_char c) = Py.isspace c.
Proof.
  unfold Py.lower_char.
  destruct ((65 <=? c) && (c <=? 90))%N eqn:E; [|reflexivity].
  apply andb_true_iff in E. destruct E as [E1 E2].
  apply N.leb_le in E1. apply N.leb_le in E2.
  unfold Py.isspace.
  repeat match goal with
         | |- context [(?a <=? ?b)%N] =>
             first [ replace (a <=? b)%N with false
                       by (symmetry; apply N.leb_gt; lia)
                   | replace (a <=? b)%N with true
                       by (symmetry; apply N.leb_le; lia) ]
         | |- context [(?a =? ?b)%N] =>
             replace (a =? b)%N with false
               by (symmetry; apply N.eqb_neq; lia)
         end.
  reflexivity.
Qed.

Lemma normalize_commutes (s : Py.str) : normalize s = Py.strip (Py.lower s).
Proof.
  unfold normalize, Py.lower. symmetry. apply strip_map.
  apply lower_keeps_space.
Qed.

(** X12.  Operator answers are read without regard to surrounding whitespace
    and to case: a line padded with whitespace on either side, and a line
    that differs only in the case of its ASCII letters, give the same
    token. *)
Theorem normalize_insensitive (pad1 pad2 s s' : Py.str) :
  blank pad1 -> blank pad2 -> Py.lower s = Py.lower s' ->
  normalize (pad1 ++ s ++ pad2) = normalize s'.
Proof.
  intros H1 H2 Hl. unfold normalize at 1. rewrite strip_blank by assumption.
  change (Py.lower (Py.strip s)) with (normalize s).
  now rewrite !normalize_commutes, Hl.
Qed.

Lemma normalize_insensitive_witness :
  blank [32%N; 9%N] /\ blank [13%N; 10%N]
  /\ Py.lower (tok "Y") = Py.lower (tok "y")
  /\ normalize ([32%N; 9%N] ++ tok "Y" ++ [13%N; 10%N]) = normalize (tok "y").
Proof.
  assert (H1 : blank [32%N; 9%N]) by (repeat constructor).
  assert (H2 : blank [13%N; 10%N]) by (repeat constructor).
  assert (H3 : Py.lower (tok "Y") = Py.lower (tok "y")) by reflexivity.
  split; [exact H1|]. split; [exact H2|]. split; [exact H3|].
  exact (normalize_insensitive (tok "Y") (tok "y") H1 H2 H3).
Defined.

(** ** The ids of a search answer *)

Lemma split_from_words (s : Py.bytes) :
  forall acc,
  Forall (fun b => byte_isspace b = false) acc ->
  Forall word (split_from s acc)
  /\ (split_from s acc = [] <->
      acc = [] /\ Forall (fun b => byte_isspace b = true) s).
Proof.
  induction s as [|b s IH]; intros acc Hacc; simpl.
  - destruct acc as [|a acc].
    + split; [constructor | split; [intros _; split; constructor | reflexivity]].
    + split.
      * repeat constructor.
        -- intros H. apply (f_equal (@length byte)) in H.
           rewrite length_rev in H. discriminate H.
        -- now apply Forall_rev.
      * split; [discriminate | intros [H _]; discriminate H].
  - destruct (byte_isspace b) eqn:Eb.
    + destruct (IH [] (Forall_nil _)) as [Hw Hiff].
      destruct acc as [|a acc].
      * split; [exact Hw|]. rewrite Hiff. split.
        -- intros [_ H]. split; [reflexivity | now constructor].
        -- intros [_ H]. inversion H; subst. split; [reflexivity | assumption].
      * split.
        -- constructor; [|exact Hw]. split.
           ++ intros H. apply (f_equal (@length byte)) in H.
              rewrite length_rev in H. discriminate H.
           ++ now apply Forall_rev.
        -- split; [discriminate | intros [H _]; discriminate H].
    + assert (Hacc' : Forall (fun b => byte_isspace b = false) (b :: acc))
        by now constructor.
      destruct (IH (b :: acc) Hacc') as [Hw Hiff].
      split; [exact Hw|]. rewrite Hiff. split.
      * intros [H _]. discriminate H.
      * intros [_ H]. inversion H; subst. congruence.
Qed.

(** X13.  The ids split off a search answer are never empty and hold no
    whitespace, and there is no id at all exactly when the answer is empty
    or whitespace only. *)
Theorem bytes_split_words (m : Py.bytes) :
  Forall word (bytes_split m)
  /\ (bytes_split m = [] <-> Forall (fun b => byte_isspace b = true) m).
Proof.
  unfold bytes_split.
  destruct (split_from_words m (Forall_nil _)) as [Hw Hiff].
  split; [exact Hw|]. rewrite Hiff. split; [now intros [_ H] | now split].
Qed.

(** ** The session as a whole *)

Section Whole.

Context {W : Type} (env : Env W).

Lemma poll_is_inside (ev : Event) : is_poll ev -> inside ev.
Proof. destruct ev; simpl; tauto. Qed.

Lemma console_is_inside (ev : Event) : console_event ev -> inside ev.
Proof. destruct ev; simpl; try tauto; discriminate. Qed.

Lemma within_is_inside (emails : list MailRecord) (ev : Event) :
  within emails ev -> inside ev.
Proof. destruct ev; simpl; tauto. Qed.

Lemma iteration_inside : emits inside (iteration env).
Proof.
  unfold iteration. emit.
  - apply emits_weaken with (P := is_poll);
      [apply poll_is_inside | apply fetch_unseen_polls].
  - apply emits_weaken with (P := console_event);
      [apply console_is_inside | apply presenting_console].
  - apply emits_weaken with (P := within a0);
      [apply within_is_inside | apply awaiting_choice_within].
Qed.

Lemma loop_inside (fuel : nat) : emits inside (loop env fuel).
Proof.
  induction fuel as [|fuel IH]; simpl; emit.
  - apply iteration_inside.
  - destruct a; [exact IH | emit].
Qed.

Lemma polls_started_app (t1 t2 : list Event) :
  polls_started (t1 ++ t2) = polls_started t1 + polls_started t2.
Proof. unfold polls_started. now rewrite filter_app, length_app. Qed.

Lemma no_select_no_poll (P : Event -> Prop) (t : list Event) :
  (forall ev, P ev -> is_select ev = false) ->
  Forall P t -> polls_started t = 0.
Proof.
  intros HP H. unfold polls_started.
  induction H as [|ev t Hev _ IH]; [reflexivity|].
  simpl. now rewrite (HP _ Hev).
Qed.

Lemma fetch_each_no_select (ids : list Py.bytes) :
  forall results s, polls_started (snd (fetch_each env ids results s)) = 0.
Proof.
  induction ids as [|eid rest IH]; intros results s; [reflexivity|].
  simpl fetch_each. rewrite bind_run.
  destruct (fetch_one_shape env eid s) as (r & s1 & E & _). rewrite E.
  destruct r as [[rec|]|ex]; [| |reflexivity].
  - specialize (IH (results ++ [rec]) s1).
    destruct (fetch_each env rest (results ++ [rec]) s1) as [[r2 s2] t2].
    exact IH.
  - specialize (IH results s1).
    destruct (fetch_each env rest results s1) as [[r2 s2] t2]. exact IH.
Qed.

Lemma fetch_unseen_one_select (s : Session W) :
  polls_started (snd (fetch_unseen env s)) = 1.
Proof.
  unfold fetch_unseen. rewrite bind_run. unfold call at 1.
  destruct (imap_select env (world s)) as [[u|ex] w1]; [|reflexivity].
  cbv iota beta. rewrite bind_run. unfold call at 1. cbn [world stdin].
  destruct (imap_search env w1) as [[[status m]|ex] w2]; [|reflexivity].
  cbv iota beta.
  destruct (negb (Py.eqb status (tok "OK"))); [reflexivity|].
  pose proof (fetch_each_no_select (bytes_split m) [] (mkSession w2 (stdin s)))
    as H.
  destruct (fetch_each env (bytes_split m) [] _) as [[r s3] t3].
  cbn [snd] in *. rewrite !polls_started_app, H. reflexivity.
Qed.

Lemma iteration_one_select (s : Session W) :
  polls_started (snd (iteration env s)) = 1.
Proof.
  unfold iteration. rewrite bind_run, print_run, bind_run.
  pose proof (fetch_unseen_one_select s) as H1.
  destruct (fetch_unseen env s) as [[[emails|ex] s1] t1]; cbn [snd] in *;
    [|exact H1].
  rewrite bind_run.
  pose proof (@presenting_console W emails s1) as Cp.
  apply (no_select_no_poll (P := console_event)) in Cp;
    [|intros [] H; try discriminate H; reflexivity].
  destruct (presenting emails s1) as [[[u|ex] s2] t2]; cbn [snd] in *.
  - pose proof (awaiting_choice_within env emails s2) as Ca.
    apply (no_select_no_poll (P := within emails)) in Ca;
      [|intros [] H; try contradiction; reflexivity].
    destruct (awaiting_choice env emails s2) as [[r3 s3] t3]; cbn [snd] in *.
    change (polls_started (t1 ++ t2 ++ t3) = 1).
    rewrite !polls_started_app. lia.
  - change (polls_started (t1 ++ t2) = 1).
    rewrite !polls_started_app. lia.
Qed.

Lemma loop_polls (fuel : nat) :
  forall s, polls_started (snd (loop env fuel s)) <= S (length (stdin s)).
Proof.
  induction fuel as [|fuel IH]; intros s; [cbv; lia|].
  simpl loop. rewrite bind_run.
  pose proof (iteration_one_select s) as H1.
  pose proof (iteration_reads env s) as Hr.
  destruct (iteration env s) as [[[c|ex] s1] t1]; cbn [snd] in *; [|lia].
  destruct c.
  - specialize (IH s1).
    destruct (loop env fuel s1) as [[r2 s2] t2]; cbn [snd] in *.
    rewrite polls_started_app. lia.
  - rewrite ret_run. cbn [snd]. rewrite app_nil_r. lia.
Qed.

Lemma logout_quietly_run (s : Session W) :
  logout_quietly env s
  = (Ret tt, mkSession (snd (imap_logout env (world s))) (stdin s), [Logout]).
Proof.
  unfold logout_quietly, try_except, call.
  destruct (imap_logout env (world s)) as [[[]|ex] w]; reflexivity.
Qed.

Lemma interactive_loop_run (s : Session W) :
  interactive_loop env s
  = match imap_connect env (world s) with
    | (Raise e, w) => (Raise e, mkSession w (stdin s), [Connect])
    | (Ret _, w) =>
        match loop env (S (length (stdin s))) (mkSession w (stdin s)) with
        | (r, s1, t1) =>
            (r, mkSession (snd (imap_logout env (world s1))) (stdin s1),
             Connect :: t1 ++ [Logout])
        end
    end.
Proof.
  unfold interactive_loop. rewrite bind_run. unfold connect_imap, call.
  destruct (imap_connect env (world s)) as [[u|ex] w]; [|reflexivity].
  cbv iota beta. unfold try_finally.
  destruct (loop env (S (length (stdin s))) (mkSession w (stdin s)))
    as [[r s1] t1].
  rewrite logout_quietly_run. reflexivity.
Qed.

End Whole.

(** X14.  A session that connected always logs out, exactly once and as its
    last call, whether the operator quit, the input ran out or an exception
    left the loop; an exception raised by the logout itself is swallowed and
    does not change how the session ends.  A session that could not connect
    makes no further call and ends with the connection's exception. *)
Theorem session_logs_out W (env : Env W) (s : Session W) :
  match imap_connect env (world s) with
  | (Raise e, w) =>
      interactive_loop env s = (Raise e, mkSession w (stdin s), [Connect])
  | (Ret _, w) =>
      exists t,
        snd (interactive_loop env s) = Connect :: t ++ [Logout]
        /\ Forall inside t
        /\ fst (fst (interactive_loop env s))
           = fst (fst (loop env (S (length (stdin s))) (mkSession w (stdin s))))
  end.
Proof.
  rewrite interactive_loop_run.
  destruct (imap_connect env (world s)) as [[u|ex] w]; [|reflexivity].
  pose proof (loop_inside env (S (length (stdin s))) (mkSession w (stdin s)))
    as Hin.
  destruct (loop env (S (length (stdin s))) (mkSession w (stdin s)))
    as [[r s1] t1].
  exists t1. repeat split. exact Hin.
Qed.

(** X15.  A session never polls more often than the operator answers, plus
    once: the number of polls it starts is at most the number of operator
    lines available plus one. *)
Theorem polls_bounded_by_input W (env : Env W) (s : Session W) :
  polls_started (snd (interactive_loop env s)) <= S (length (stdin s)).
Proof.
  rewrite interactive_loop_run.
  destruct (imap_connect env (world s)) as [[u|ex] w];
    [|cbn [snd]; change (polls_started [Connect]) with 0; lia].
  pose proof (loop_polls env (S (length (stdin s))) (mkSession w (stdin s)))
    as H.
  destruct (loop env (S (length (stdin s))) (mkSession w (stdin s)))
    as [[r s1] t1].
  cbn [snd stdin] in *.
  change (Connect :: t1 ++ [Logout]) with ([Connect] ++ t1 ++ [Logout]).
  rewrite !polls_started_app.
  change (polls_started [Connect]) with 0.
  change (polls_started [Logout]) with 0. lia.
Qed.

(** ** Records that decode, and polls that break *)

Lemma chunks_decode W (env : Env W) (parts : list (Chunk * option Py.str)) :
  Forall (chunk_decodes env) parts -> first_failure env parts = None.
Proof.
  intros H. induction H as [|[[b|x] enc] rest Hp _ IH]; simpl;
    [reflexivity| |exact IH].
  destruct Hp as (dec & Hdec & Htot). unfold bytes_decode. rewrite Hdec.
  destruct (Htot b) as [text ->]. exact IH.
Qed.

(** X16.  A message whose three headers are empty or parse into chunks whose
    charsets decode, whose parts name only charsets that decode, and whose
    multipart containers are not typed as text, is built into a record
    without an exception: the record carries the id it was fetched under,
    the decoded headers, the body [get_body] finds and the preview of that
    body. *)
Theorem build_record_returns W (env : Env W) (eid : Py.bytes) (msg : Message) :
  header_decodes env (h_subject (headers msg)) ->
  header_decodes env (h_from (headers msg)) ->
  header_decodes env (h_date (headers msg)) ->
  (forall part, In part (walk msg) -> charset_decodes env part) ->
  containers_not_text msg ->
  exists body,
    get_body env msg = Ret body
    /\ build_record env eid msg
       = Ret (mkMail eid
                (header_text env (h_subject (headers msg)))
                (header_text env (h_from (headers msg)))
                (header_text env (h_date (headers msg)))
                body (preview_of body)).
Proof.
  intros Hs Hf Hd Hk Hc.
  assert (Hdec : forall h, header_decodes env h ->
                           decode_mime env h = Ret (header_text env h)).
  { intros h Hh. unfold decode_mime, header_text, header_decodes in *.
    destruct h as [|c h]; [reflexivity|].
    destruct Hh as (parts & -> & Hall).
    rewrite decode_parts_result, (chunks_decode Hall). reflexivity. }
  destruct (@get_body_decodes W env msg Hk Hc) as [body Hb].
  exists body. split; [exact Hb|].
  unfold build_record.
  rewrite (Hdec _ Hs), (Hdec _ Hf), (Hdec _ Hd), Hb. reflexivity.
Qed.

Lemma sample_header_decodes (h : string) :
  sample_decode_header (tok h) = Ret [(StrChunk (tok h), None)] ->
  header_decodes sample_env (tok h).
Proof.
  intros H. unfold header_decodes. destruct (tok h) as [|c r]; [exact I|].
  eexists. split; [exact H|]. repeat constructor.
Qed.

Lemma build_record_returns_witness :
  header_decodes sample_env (h_subject (headers mail1))
  /\ header_decodes sample_env (h_from (headers mail1))
  /\ header_decodes sample_env (h_date (headers mail1))
  /\ (forall part, In part (walk mail1) -> charset_decodes sample_env part)
  /\ containers_not_text mail1
  /\ exists body,
       get_body sample_env mail1 = Ret body
       /\ build_record sample_env (Py.bytes_of_string "1") mail1
          = Ret (mkMail (Py.bytes_of_string "1")
                   (header_text sample_env (h_subject (headers mail1)))
                   (header_text sample_env (h_from (headers mail1)))
                   (header_text sample_env (h_date (headers mail1)))
                   body (preview_of body)).
Proof.
  assert (H1 : header_decodes sample_env (h_subject (headers mail1)))
    by (apply (sample_header_decodes "Invoice"); reflexivity).
  assert (H2 : header_decodes sample_env (h_from (headers mail1)))
    by (apply (sample_header_decodes "alice@example.org"); reflexivity).
  assert (H3 : header_decodes sample_env (h_date (headers mail1)))
    by (apply (sample_header_decodes "Mon, 1 Jan 2024"); reflexivity).
  assert (Hk : forall part, In part (walk mail1) -> charset_decodes sample_env part).
  { intros part [<-|[]]. exact sample_utf8_accepts. }
  assert (Hc : containers_not_text mail1).
  { intros part [<-|[]] Hm. discriminate Hm. }
  repeat (split; [assumption|]).
  exact (@build_record_returns World sample_env (Py.bytes_of_string "1") mail1
           H1 H2 H3 Hk Hc).
Defined.

(** X17.  An exception raised by [imap.select], [imap.search] or [imap.fetch]
    is not caught by the poll: it ends [fetch_unseen] at that call, and the
    records gathered before a raising fetch are lost with it, unlike a fetch
    that merely answers with a bad status. *)
Theorem imap_exception_ends_poll W (env : Env W) (s : Session W) :
  (forall e w,
      imap_select env (world s) = (Raise e, w) ->
      fetch_unseen env s = (Raise e, mkSession w (stdin s), [Select]))
  /\ (forall u w1 e w2,
      imap_select env (world s) = (Ret u, w1) ->
      imap_search env w1 = (Raise e, w2) ->
      fetch_unseen env s = (Raise e, mkSession w2 (stdin s), [Select; Search]))
  /\ (forall eid rest results e w,
      imap_fetch env eid (world s) = (Raise e, w) ->
      fetch_each env (eid :: rest) results s
      = (Raise e, mkSession w (stdin s), [Fetch eid])).
Proof.
  split; [|split].
  - intros e w H. unfold fetch_unseen. rewrite bind_run. unfold call at 1.
    rewrite H. reflexivity.
  - intros u w1 e w2 H1 H2. unfold fetch_unseen.
    rewrite bind_run. unfold call at 1. rewrite H1. cbv iota beta.
    rewrite bind_run. unfold call at 1. cbn [world stdin]. rewrite H2.
    reflexivity.
  - intros eid rest results e w H. simpl fetch_each.
    rewrite bind_run. unfold fetch_one. rewrite bind_run. unfold call.
    rewrite H. reflexivity.
Qed.

Lemma imap_exception_ends_poll_witness :
  (imap_select (breaking_env 0) half_fetchable_world
   = (Raise dropped, half_fetchable_world)
   /\ fetch_unseen (breaking_env 0) (mkSession half_fetchable_world [])
      = (Raise dropped, mkSession half_fetchable_world [], [Select]))
  /\ (imap_select (breaking_env 1) half_fetchable_world
      = (Ret tt, half_fetchable_world)
      /\ imap_search (breaking_env 1) half_fetchable_world
         = (Raise dropped, half_fetchable_world)
      /\ fetch_unseen (breaking_env 1) (mkSession half_fetchable_world [])
         = (Raise dropped, mkSession half_fetchable_world [], [Select; Search]))
  /\ (imap_fetch (breaking_env 2) (Py.bytes_of_string "2") half_fetchable_world
      = (Raise dropped, half_fetchable_world)
      /\ fetch_each (breaking_env 2) [Py.bytes_of_string "2"] [record1]
           (mkSession half_fetchable_world [])
         = (Raise dropped, mkSession half_fetchable_world [],
            [Fetch (Py.bytes_of_string "2")])).
Proof.
  split; [|split].
  - split; [reflexivity|].
    exact (proj1 (imap_exception_ends_poll (breaking_env 0)
                    (mkSession half_fetchable_world []))
             dropped half_fetchable_world eq_refl).
  - split; [reflexivity|]. split; [reflexivity|].
    exact (proj1 (proj2 (imap_exception_ends_poll (breaking_env 1)
                           (mkSession half_fetchable_world [])))
             tt half_fetchable_world dropped half_fetchable_world
             eq_refl eq_refl).
  - split; [reflexivity|].
    exact (proj2 (proj2 (imap_exception_ends_poll (breaking_env 2)
                           (mkSession half_fetchable_world [])))
             (Py.bytes_of_string "2") [] [record1] dropped half_fetchable_world
             eq_refl).
Defined.

(** ** Quitting *)

Lemma calm_sends_nothing (t : list Event) :
  Forall (fun ev => is_poll ev \/ console_event ev) t ->
  sent_texts t = [] /\ stored_ids t = [].
Proof.
  intros H. induction H as [|ev t Hev _ [IH1 IH2]]; [split; reflexivity|].
  destruct ev; destruct Hev as [Hev|Hev]; try contradiction;
    try discriminate Hev; split; assumption.
Qed.

(** X18.  When the operator answers [q] at the first option prompt the
    session ends normally after that one poll: nothing was sent or flagged,
    the lines after the answer are left unread, and the session logs out;
    this holds whether or not there are unread records. *)
Theorem quit_ends_session W (env : Env W) (s : Session W)
    u w1 emails s2 t2 line rest :
  imap_connect env (world s) = (Ret u, w1) ->
  fetch_unseen env (mkSession w1 (stdin s)) = (Ret emails, s2, t2) ->
  stdin s2 = line :: rest ->
  normalize line = tok "q" ->
  fst (fst (interactive_loop env s)) = Ret (Some tt)
  /\ stdin (snd (fst (interactive_loop env s))) = rest
  /\ polls_started (snd (interactive_loop env s)) = 1
  /\ sent_texts (snd (interactive_loop env s)) = []
  /\ stored_ids (snd (interactive_loop env s)) = []
  /\ exists t, snd (interactive_loop env s)
               = Connect :: t ++ [Print Quitting; Logout].
Proof.
  intros Hc Hf Hs Hq.
  pose proof (fetch_unseen_polls env (mkSession w1 (stdin s))) as Hp.
  pose proof (fetch_unseen_one_select env (mkSession w1 (stdin s))) as H1.
  rewrite Hf in Hp, H1. cbn [snd] in Hp, H1.
  pose proof (@presenting_console W emails s2) as Cp.
  rewrite presenting_run in Cp. cbn [snd] in Cp.
  rewrite interactive_loop_run, Hc.
  simpl loop. rewrite bind_run. unfold iteration.
  rewrite bind_run, print_run, bind_run, Hf, bind_run, presenting_run.
  unfold awaiting_choice.
  rewrite bind_run, (read_token_run _ _ Hs), Hq.
  change (Py.eqb (tok "q") (tok "q")) with true. cbv iota.
  rewrite bind_run, print_run, ret_run. cbv iota beta. rewrite ret_run.
  cbn [fst snd stdin world].
  set (shown := Print (Found (length emails)) :: _) in *.
  split; [reflexivity|]. split; [reflexivity|].
  assert (Hcalm : Forall (fun ev => is_poll ev \/ console_event ev)
                         (t2 ++ shown)).
  { apply Forall_app. split.
    - eapply Forall_impl; [|exact Hp]. intros; now left.
    - eapply Forall_impl; [|exact Cp]. intros; now right. }
  destruct (calm_sends_nothing Hcalm) as [Hsent Hstored].
  rewrite sent_texts_app in Hsent. rewrite stored_ids_app in Hstored.
  apply app_eq_nil in Hsent. apply app_eq_nil in Hstored.
  destruct Hsent as [Hs1 Hs2]. destruct Hstored as [Hst1 Hst2].
  assert (Hshown : polls_started shown = 0).
  { apply (no_select_no_poll (P := console_event)); [|exact Cp].
    intros [] H; try discriminate H; reflexivity. }
  match goal with
  | |- polls_started ?tr = 1 /\ _ =>
      assert (Etr : tr = [Connect; Print Fetching] ++ t2 ++ shown
                         ++ [Input AskOption line; Print Quitting; Logout])
        by (clearbody shown; rewrite !app_nil_r; cbn [app];
            rewrite <- !app_assoc; reflexivity);
      rewrite Etr
  end.
  split; [|split; [|split]].
  - rewrite !polls_started_app, H1, Hshown. reflexivity.
  - rewrite !sent_texts_app, Hs1, Hs2. reflexivity.
  - rewrite !stored_ids_app, Hst1, Hst2. reflexivity.
  - exists (Print Fetching :: t2 ++ shown ++ [Input AskOption line]).
    cbn [app]. rewrite <- !app_assoc. reflexivity.
Qed.

Lemma quit_ends_session_witness :
  imap_connect sample_env rejecting_world = (Ret tt, rejecting_world)
  /\ stdin (mkSession rejecting_world [tok " Q"; tok "1"])
     = [tok " Q"; tok "1"]
  /\ normalize (tok " Q") = tok "q"
  /\ fst (fst (interactive_loop sample_env
                 (mkSession rejecting_world [tok " Q"; tok "1"])))
     = Ret (Some tt)
  /\ stdin (snd (fst (interactive_loop sample_env
                        (mkSession rejecting_world [tok " Q"; tok "1"]))))
     = [tok "1"].
Proof.
  split; [reflexivity|]. split; [reflexivity|]. split; [reflexivity|].
  eassert (Hf : fetch_unseen sample_env
                  (mkSession rejecting_world [tok " Q"; tok "1"]) = _)
    by (vm_compute; reflexivity).
  pose proof (@quit_ends_session World sample_env
                (mkSession rejecting_world [tok " Q"; tok "1"])
                tt rejecting_world _ _ _ (tok " Q") [tok "1"]
                eq_refl Hf eq_refl eq_refl) as H.
  split; [exact (proj1 H) | exact (proj1 (proj2 H))].
Defined.

(** ** More statements at sample inputs *)

(** X9 at the two sample records: the second is shown under index 2. *)
Lemma presenting_shows_positions_witness :
  In (2, record2) (Py.last_n 10 (numbered [record1; record2]))
  /\ 1 <= 2
  /\ nth_error [record1; record2] (2 - 1) = Some record2.
Proof.
  assert (H : In (2, record2) (Py.last_n 10 (numbered [record1; record2])))
    by (vm_compute; tauto).
  split; [exact H|].
  exact (proj2 (proj2 (presenting_shows_positions [record1; record2]
                         (mkSession rejecting_world [])))
           2 record2 H).
Defined.

(** X11 at a sample turn: both records are selected and confirmed, and the
    text that goes out first is the text of a record of that turn's poll. *)
Lemma turn_sends_only_polled_witness :
  In (Create (payload record1)
        (Raise (TwilioRestException (tok "Invalid number") (Some (tok "21211")))))
     (snd (iteration sample_env
             (mkSession rejecting_world [tok "3"; tok "y"; tok "n"])))
  /\ In (payload record1)
        (map payload
           (polled sample_env
              (mkSession rejecting_world [tok "3"; tok "y"; tok "n"]))).
Proof.
  assert (H : In (Create (payload record1)
                    (Raise (TwilioRestException (tok "Invalid number")
                              (Some (tok "21211")))))
                 (snd (iteration sample_env
                         (mkSession rejecting_world
                            [tok "3"; tok "y"; tok "n"])))).
  { vm_compute. tauto. }
  split; [exact H|].
  exact (proj1 (turn_sends_only_polled sample_env
                  (mkSession rejecting_world [tok "3"; tok "y"; tok "n"]))
           _ _ H).
Defined.

(** ** The preview, trimmed and with its breaks replaced *)

Lemma lstrip_decomposes (s : Py.str) :
  exists lead,
    s = lead ++ Py.lstrip s /\ blank lead
    /\ forall c r, Py.lstrip s = c :: r -> Py.isspace c = false.
Proof.
  induction s as [|c s (lead & Hs & Hb & Hh)].
  - exists []. repeat split; [constructor | discriminate].
  - simpl. destruct (Py.isspace c) eqn:Ec.
    + exists (c :: lead). split; [simpl; now f_equal|].
      split; [now constructor | exact Hh].
    + exists []. split; [reflexivity|]. split; [constructor|].
      intros c' r H. injection H as <- _. exact Ec.
Qed.

Lemma rstrip_decomposes (x : Py.str) :
  exists trail,
    x = Py.rstrip x ++ trail /\ blank trail
    /\ (forall r c, Py.rstrip x = r ++ [c] -> Py.isspace c = false)
    /\ (forall c r, x = c :: r -> Py.isspace c = false ->
                    exists r', Py.rstrip x = c :: r').
Proof.
  destruct (lstrip_decomposes (rev x)) as (lead & Hs & Hb & Hh).
  exists (rev lead). unfold Py.rstrip. split; [|split; [|split]].
  - rewrite <- rev_app_distr, <- Hs. now rewrite rev_involutive.
  - unfold blank. now apply Forall_rev.
  - intros r c H. apply (f_equal (@rev N)) in H.
    rewrite rev_involutive, rev_app_distr in H. simpl in H.
    exact (Hh _ _ H).
  - intros c r -> Hc. simpl rev. rewrite lstrip_app.
    destruct (Py.lstrip (rev r)) as [|d l].
    + simpl. rewrite Hc. exists []. reflexivity.
    + exists (rev (d :: l)). now rewrite rev_app_distr.
Qed.

Lemma strip_decomposes (s : Py.str) :
  exists lead trail,
    s = lead ++ Py.strip s ++ trail /\ blank lead /\ blank trail
    /\ (forall c r, Py.strip s = c :: r -> Py.isspace c = false)
    /\ (forall r c, Py.strip s = r ++ [c] -> Py.isspace c = false).
Proof.
  destruct (lstrip_decomposes s) as (lead & Hs & Hb & Hh).
  destruct (rstrip_decomposes (Py.lstrip s)) as (trail & Hx & Hbt & Hlast & Hkeep).
  exists lead, trail. unfold Py.strip.
  split; [now rewrite <- Hx|]. split; [exact Hb|]. split; [exact Hbt|].
  split; [|exact Hlast].
  intros c r Hc. destruct (Py.lstrip s) as [|d l] eqn:El.
  - discriminate Hc.
  - specialize (Hh d l eq_refl). destruct (Hkeep d l eq_refl Hh) as [r' Hr'].
    rewrite Hr' in Hc. injection Hc as <- _. exact Hh.
Qed.

(** C5, as written, fails: a carriage return followed by a newline is not
    collapsed into one space, it becomes two. *)
Lemma break_pair_gives_two_spaces : ~ preview_collapses_runs.
Proof.
  intros H. specialize (H [97; 13; 10; 98]%N). vm_compute in H.
  discriminate H.
Qed.

(** C5, amended.  The preview of a body is taken from the body without its
    leading and trailing whitespace: in what is left, which neither starts
    nor ends with whitespace, every carriage return and every newline is
    replaced by one space each, and the result is cut at 400 characters.  It
    is at most 400 characters long and holds no carriage return and no
    newline, and the preview field of every record built from a message is
    the preview of that record's body. *)
Theorem preview_trimmed_replaced W (env : Env W) (eid : Py.bytes)
    (msg : Message) (body : Py.str) :
  (exists lead core trail,
      body = lead ++ core ++ trail
      /\ blank lead /\ blank trail
      /\ (forall c r, core = c :: r -> Py.isspace c = false)
      /\ (forall r c, core = r ++ [c] -> Py.isspace c = false)
      /\ preview_of body
         = firstn 400
             (map (fun c => if (c =? 13)%N || (c =? 10)%N then 32%N else c)
                  core))
  /\ length (preview_of body) <= 400
  /\ ~ In 13%N (preview_of body)
  /\ ~ In 10%N (preview_of body)
  /\ match build_record env eid msg with
     | Ret r => mail_preview r = preview_of (mail_body r)
     | Raise _ => True
     end.
Proof.
  assert (Hmid : preview_of body = firstn 400 (collapse_breaks (Py.strip body))).
  { unfold preview_of, Py.take. now rewrite replace_twice. }
  split; [|split; [|split; [|split]]].
  - destruct (strip_decomposes body) as (lead & trail & Hb & Hl & Ht & Hh & Hlast).
    exists lead, (Py.strip body), trail.
    repeat (split; [assumption|]). exact Hmid.
  - apply firstn_le_length.
  - rewrite Hmid. intros H; apply in_firstn in H.
    exact (proj1 (collapse_no_break (Py.strip body)) H).
  - rewrite Hmid. intros H; apply in_firstn in H.
    exact (proj2 (collapse_no_break (Py.strip body)) H).
  - destruct (build_record env eid msg) eqn:E; [|exact I].
    now apply build_record_preview in E.
Qed.

(** The preview of a body with a blank margin and a break pair inside. *)
Example preview_of_break_pair :
  preview_of ([32; 9; 97; 13; 10; 98; 10; 32]%N) = [97; 32; 32; 98]%N.
Proof. reflexivity. Qed.

(** ** Attachments *)

(** C6, at the failing input.  A text part declared as [Attachment], with a
    capital letter, is a declared attachment, yet the test of [get_body]
    looks for the lower-case word only: the attachment is returned as the
    body and the text of the message, which comes after it, is not.  In the
    other direction a part declared inline under a file name that holds the
    word is passed over, and the body comes out empty. *)
Theorem capital_attachment_is_body :
  walk mail_with_notes = [mail_with_notes; notes_part; greeting_part]
  /\ declared_attachment notes_part = true
  /\ declared_attachment greeting_part = false
  /\ get_body sample_env mail_with_notes = Ret (tok "my notes")
  /\ decode_payload sample_env greeting_part = Ret (tok "Dear Bob")
  /\ declared_attachment inline_part = false
  /\ get_body sample_env mail_inline = Ret [].
Proof. repeat split; vm_compute; reflexivity. Qed.

(** ** Headers and charsets that raise *)

(** A broken encoded word makes [decode_mime] raise what [decode_header]
    raises, and a charset whose codec refuses [errors="ignore"] makes the
    decoding raise although the codec exists. *)
Example decoding_can_raise :
  decode_mime sample_env (tok "=?utf-8?b?a?=")
  = Raise (HeaderParseError (tok "Base64 decoding error"))
  /\ get_body sample_env
       (Leaf (plain_headers "Hi" "eve@example.org" "Wed, 3 Jan 2024"
                (Some (tok "idna")))
             (Py.bytes_of_string "abc"))
     = Raise (UnicodeError (tok "Unsupported error handling ignore"))
  /\ decode_mime sample_env (tok "=?utf-8?q?caf=C3=A9?=")
     = Ret [99; 97; 102; 233]%N.
Proof. repeat split; vm_compute; reflexivity. Qed.
